(** * The [Fraction] class of exercises/operators/operators.cpp

    A shallow embedding of the rational-number exercise: the two [unsigned int]
    fields, the private [normalize] step, the multiplication operators, the
    stream insertion operator and the six relational operators, followed by
    the properties that the specification states about them.

    Conventions of the embedding.
    - An [unsigned int] is a [Z] in the range [0 <= x < 2^32]; every
      arithmetic operation of the source that can leave that range is
      followed by its reduction modulo [2^32].
    - A C++ evaluation ends in one of three ways, see [outcome]: it returns a
      value, it throws, or it runs into undefined behaviour.  The only
      undefined behaviour the class can run into is the integer division by
      zero inside [normalize].
    - A member function that changes [*this] takes the object and returns the
      object after the call.

    The file also covers the test driver ([printAndCheck], [main]) and, from
    the smart-pointer exercise, the functions that work on vectors of raw
    pointers ([removeMiddle], [removeRandom], [problem3]), over a free store
    that records which objects are alive. *)

From Stdlib Require Import ZArith Znumtheory Lia Bool List String Ascii.
From Stdlib Require Import DecimalString DecimalPos DecimalN.
Import ListNotations.

Local Open Scope Z_scope.

(** ** Evaluation outcomes *)

Inductive outcome (A : Type) : Type :=
| Returns (a : A)
| Throws (what : string)
| Undefined.

Arguments Returns {A} a.
Arguments Throws {A} what.
Arguments Undefined {A}.

Definition bind {A B : Type} (m : outcome A) (k : A -> outcome B) : outcome B :=
  match m with
  | Returns a => k a
  | Throws what => Throws what
  | Undefined => Undefined
  end.

Definition fmap {A B : Type} (f : A -> B) (m : outcome A) : outcome B :=
  bind m (fun a => Returns (f a)).

Declare Scope outcome_scope.
Delimit Scope outcome_scope with outcome.
Notation "x <- m ;; k" := (bind m (fun x => k))
  (at level 61, m at next level, right associativity) : outcome_scope.
Local Open Scope outcome_scope.

(** [returned m] holds when the evaluation completed with a value. *)
Definition returned {A : Type} (m : outcome A) : bool :=
  match m with
  | Returns _ => true
  | _ => false
  end.

(** ** [unsigned int] and [int] *)

Definition uint_modulus : Z := 2 ^ 32.

Definition is_uint (x : Z) : Prop := 0 <= x < uint_modulus.

(** Conversion of an arbitrary integer value to [unsigned int]. *)
Definition uint_of_int (x : Z) : Z := x mod uint_modulus.

(** Conversion of an [unsigned int] to [int] (two's complement). *)
Definition int_of_uint (x : Z) : Z :=
  if x <? 2 ^ 31 then x else x - uint_modulus.

(** [a * b] on [unsigned int]. *)
Definition umul (a b : Z) : Z := (a * b) mod uint_modulus.

(** [a / b] on [unsigned int]; a zero divisor is undefined behaviour. *)
Definition udiv (a b : Z) : outcome Z :=
  if b =? 0 then Undefined else Returns (a / b).

(** [std::gcd] on two [unsigned int]s. *)
Definition std_gcd (m n : Z) : Z := Z.gcd m n.

(** ** The class *)

Record Fraction : Type := mkFraction { m_num : Z; m_denom : Z }.

(** Both fields hold [unsigned int] values. *)
Definition in_range (f : Fraction) : Prop :=
  is_uint (m_num f) /\ is_uint (m_denom f).

(** The fields are not both zero. *)
Definition not_both_zero (f : Fraction) : Prop :=
  m_num f <> 0 \/ m_denom f <> 0.

(** [Fraction(unsigned int num, unsigned int denom)] *)
Definition Fraction_ctor (num denom : Z) : outcome Fraction :=
  Returns {| m_num := num; m_denom := denom |}.

(** [Fraction(unsigned int num)] *)
Definition Fraction_ctor1 (num : Z) : outcome Fraction :=
  Returns {| m_num := num; m_denom := 1 |}.

(** [void normalize()]: the local [gcd] is an [int]; in [m_num /= gcd] it is
    converted back to [unsigned int] before the division. *)
Definition normalize (this : Fraction) : outcome Fraction :=
  let gcd := int_of_uint (std_gcd (m_num this) (m_denom this)) in
  num <- udiv (m_num this) (uint_of_int gcd) ;;
  denom <- udiv (m_denom this) (uint_of_int gcd) ;;
  Returns {| m_num := num; m_denom := denom |}.

(** [Fraction& operator*=(unsigned int coeff)] *)
Definition operator_mul_assign (this : Fraction) (coeff : Z) : outcome Fraction :=
  let this := {| m_num := umul (m_num this) coeff; m_denom := m_denom this |} in
  normalize this.

(** [Fraction& operator*=(const Fraction& r)] *)
Definition operator_mul_assign_Fraction (this r : Fraction) : outcome Fraction :=
  let this := {| m_num := umul (m_num this) (m_num r); m_denom := m_denom this |} in
  let this := {| m_num := m_num this; m_denom := umul (m_denom this) (m_denom r) |} in
  normalize this.

(** [Fraction operator*(unsigned int coeff)], the member form *)
Definition operator_mul (this : Fraction) (coeff : Z) : outcome Fraction :=
  rr <- Fraction_ctor (m_num this) (m_denom this) ;;
  rr <- operator_mul_assign rr coeff ;;
  rr <- normalize rr ;;
  Returns rr.

(** [Fraction operator*(unsigned int coeff, Fraction r)], the free form *)
Definition operator_mul_uint_Fraction (coeff : Z) (r : Fraction) : outcome Fraction :=
  rr <- Fraction_ctor (m_num r) (m_denom r) ;;
  rr <- operator_mul_assign rr coeff ;;
  rr <- normalize rr ;;
  Returns rr.

(** [Fraction operator*(const Fraction l, const Fraction r)] *)
Definition operator_mul_Fraction (l r : Fraction) : outcome Fraction :=
  rr <- Fraction_ctor (umul (m_num l) (m_num r)) (umul (m_denom l) (m_denom r)) ;;
  rr <- normalize rr ;;
  Returns rr.

(** Decimal output of an [unsigned int] on a stream in its initial
    formatting state. *)
Definition put_uint (x : Z) : string :=
  NilZero.string_of_uint (N.to_uint (Z.to_N x)).

(** [std::ostream& operator<<(std::ostream& os, const Fraction& r)]; the
    stream is the text written to it so far. *)
Definition operator_shl (os : string) (r : Fraction) : string :=
  ((os ++ put_uint (m_num r)) ++ "/") ++ put_uint (m_denom r).

(** [bool operator==(const Fraction& l, const Fraction& r)] *)
Definition operator_eq (l r : Fraction) : outcome bool :=
  let ll := l in
  ll <- normalize ll ;;
  let rr := r in
  rr <- normalize rr ;;
  Returns ((m_num ll =? m_num rr) && (m_denom ll =? m_denom rr))%bool.

(** [bool operator!=(const Fraction& l, const Fraction& r)] *)
Definition operator_ne (l r : Fraction) : outcome bool :=
  b <- operator_eq l r ;;
  Returns (negb b).

(** [bool operator<(const Fraction& l, const Fraction& r)] *)
Definition operator_lt (l r : Fraction) : outcome bool :=
  let ll := l in
  ll <- normalize ll ;;
  let rr := r in
  rr <- normalize rr ;;
  Returns (umul (m_num ll) (m_denom rr) <? umul (m_num rr) (m_denom ll)).

(** [bool operator<=(const Fraction& l, const Fraction& r)]; [||] evaluates
    its right operand only when the left one is false. *)
Definition operator_le (l r : Fraction) : outcome bool :=
  b <- operator_lt l r ;;
  if b then Returns true else operator_eq l r.

(** [bool operator>(const Fraction& l, const Fraction& r)] *)
Definition operator_gt (l r : Fraction) : outcome bool :=
  let ll := l in
  ll <- normalize ll ;;
  let rr := r in
  rr <- normalize rr ;;
  Returns (umul (m_num ll) (m_denom rr) >? umul (m_num rr) (m_denom ll)).

(** [bool operator>=(const Fraction& l, const Fraction& r)] *)
Definition operator_ge (l r : Fraction) : outcome bool :=
  b <- operator_gt l r ;;
  if b then Returns true else operator_eq l r.

(** ** Vocabulary of the specification *)

(** The reduced form of a pair, over the integers: both fields divided by
    their greatest common divisor. *)
Definition reduced (f : Fraction) : Fraction :=
  let g := Z.gcd (m_num f) (m_denom f) in
  {| m_num := m_num f / g; m_denom := m_denom f / g |}.

(** A pair is in lowest terms. *)
Definition is_reduced (f : Fraction) : Prop :=
  Z.gcd (m_num f) (m_denom f) = 1.

(** The textual rendering: what [operator<<] writes to an empty stream. *)
Definition render (r : Fraction) : string := operator_shl "" r.

(** The two cross products that [operator<] and [operator>] compare, taken
    over the integers on the reduced forms, both fit in an [unsigned int]. *)
Definition cross_products_fit (a b : Fraction) : Prop :=
  m_num (reduced a) * m_denom (reduced b) < uint_modulus /\
  m_num (reduced b) * m_denom (reduced a) < uint_modulus.

(** Exactly one of three booleans is true. *)
Definition exactly_one (x y z : bool) : bool :=
  match x, y, z with
  | true, false, false | false, true, false | false, false, true => true
  | _, _, _ => false
  end.

(** An operation completed and left a pair in lowest terms, with the zero
    value held as 0/1. *)
Definition stores_reduced (o : outcome Fraction) : Prop :=
  exists r, o = Returns r /\ in_range r /\ is_reduced r /\
            (m_num r = 0 -> m_denom r = 1).

(** The pair that the scaling operators hand to [normalize]. *)
Definition scaled (f : Fraction) (coeff : Z) : Fraction :=
  {| m_num := umul (m_num f) coeff; m_denom := m_denom f |}.

(** The pair that the Fraction-by-Fraction product hands to [normalize]. *)
Definition product (l r : Fraction) : Fraction :=
  {| m_num := umul (m_num l) (m_num r); m_denom := umul (m_denom l) (m_denom r) |}.

(** Characters of a decimal numeral. *)
Definition is_digit (c : ascii) : bool :=
  ((48 <=? nat_of_ascii c) && (nat_of_ascii c <=? 57))%nat.

Fixpoint string_forall (p : ascii -> bool) (s : string) : bool :=
  match s with
  | EmptyString => true
  | String c s' => p c && string_forall p s'
  end.

(** A numeral without padding: the digit string is "0" or does not start
    with the digit 0. *)
Definition no_leading_zero (s : string) : bool :=
  match s with
  | EmptyString => false
  | String c EmptyString => is_digit c
  | String c _ => is_digit c && negb (Ascii.eqb c "0")
  end.

(** Reading a decimal numeral back as a number. *)
Definition read_uint (s : string) : option Z :=
  option_map (fun d => Z.of_N (N.of_uint d)) (NilZero.uint_of_string s).

(** ** [std::cout] and the test driver *)

(** An output stream: the text written so far and the two formatting flags
    that the program changes. *)
Record ostream : Type := mkOstream {
  text : string;
  adjust_left : bool;
  boolalpha : bool
}.

(** A stream in its initial state. *)
Definition fresh_stream : ostream :=
  {| text := ""; adjust_left := false; boolalpha := false |}.

Definition newline : string := String (ascii_of_nat 10) EmptyString.

Fixpoint spaces (n : nat) : string :=
  match n with
  | O => EmptyString
  | S n' => String " " (spaces n')
  end.

(** [os << s] for a string, with the field width [width] in effect (0 when
    no [std::setw] precedes): shorter strings are filled up with spaces, on
    the right under [std::left] and on the left otherwise. *)
Definition put_string (width : nat) (os : ostream) (s : string) : ostream :=
  let fill := spaces (width - String.length s) in
  {| text := if adjust_left os then (text os ++ s) ++ fill
             else (text os ++ fill) ++ s;
     adjust_left := adjust_left os;
     boolalpha := boolalpha os |}.

(** [os << b] for a [bool]. *)
Definition put_bool (os : ostream) (b : bool) : ostream :=
  put_string 0 os
    (if boolalpha os then (if b then "true" else "false")
     else (if b then "1" else "0")).

(** [os << r] for a Fraction, through [operator<<]. *)
Definition put_Fraction (os : ostream) (r : Fraction) : ostream :=
  {| text := operator_shl (text os) r;
     adjust_left := adjust_left os;
     boolalpha := boolalpha os |}.

(** [os << std::left] *)
Definition std_left (os : ostream) : ostream :=
  {| text := text os; adjust_left := true; boolalpha := boolalpha os |}.

(** [os << std::boolalpha] *)
Definition std_boolalpha (os : ostream) : ostream :=
  {| text := text os; adjust_left := adjust_left os; boolalpha := true |}.

Definition verdict (passed : bool) : string :=
  if passed then "PASS" else "** FAIL **".

(** [void printAndCheck(std::string const & what, Fraction const & result,
    Fraction const & expected)] *)
Definition printAndCheck (cout : ostream) (what : string)
    (result expected : Fraction) : outcome ostream :=
  passed <- operator_eq result expected ;;
  let cout := std_left cout in
  let cout := put_string 40 cout what in
  let cout := put_string 0 cout ": " in
  let cout := put_string 0 cout (verdict passed) in
  let cout := put_string 0 cout "    " in
  let cout := put_Fraction cout result in
  Returns (put_string 0 cout newline).

(** [void printAndCheck(std::string const & what, bool result, bool expected)] *)
Definition printAndCheck_bool (cout : ostream) (what : string)
    (result expected : bool) : ostream :=
  let passed := Bool.eqb result expected in
  let cout := std_left cout in
  let cout := put_string 40 cout what in
  let cout := put_string 0 cout ": " in
  let cout := put_string 0 cout (verdict passed) in
  let cout := put_string 0 cout "    " in
  let cout := put_bool cout result in
  put_string 0 cout newline.

(** [int main()] of the operators exercise.  [athird] is const, so
    [athird * 2] cannot use the non-const member operator and goes through the
    converting constructor to the product of two Fractions. *)
Definition main (cout : ostream) : outcome (ostream * Z) :=
  three <- Fraction_ctor1 3 ;;
  athird <- Fraction_ctor 1 3 ;;
  let cout := put_string 0 cout "Three: " in
  let cout := put_Fraction cout three in
  let cout := put_string 0 cout newline in
  let cout := put_string 0 cout "One third: " in
  let cout := put_Fraction cout athird in
  let cout := put_string 0 cout newline in
  two <- Fraction_ctor1 2 ;;
  r <- operator_mul_Fraction athird two ;;
  e <- Fraction_ctor 2 3 ;;
  cout <- printAndCheck cout "One third times two" r e ;;
  r <- operator_mul_uint_Fraction 2 athird ;;
  e <- Fraction_ctor 2 3 ;;
  cout <- printAndCheck cout "Two times one third" r e ;;
  r <- operator_mul_Fraction three athird ;;
  e <- Fraction_ctor 1 1 ;;
  cout <- printAndCheck cout "Three times one third" r e ;;
  r <- operator_mul_uint_Fraction 3 athird ;;
  e <- Fraction_ctor 1 1 ;;
  cout <- printAndCheck cout "Three times one third" r e ;;
  let f := athird in
  f <- operator_mul_assign f 2 ;;
  e <- Fraction_ctor 2 3 ;;
  cout <- printAndCheck cout "One third times two" f e ;;
  f <- operator_mul_assign_Fraction f athird ;;
  e <- Fraction_ctor 2 9 ;;
  cout <- printAndCheck cout "Two third times one third" f e ;;
  let cout := std_boolalpha cout in
  x <- Fraction_ctor 1 3 ;; b <- operator_eq athird x ;;
  let cout := printAndCheck_bool cout "One third == one third" b true in
  x <- Fraction_ctor 1 4 ;; b <- operator_ne athird x ;;
  let cout := printAndCheck_bool cout "One third != one forth" b true in
  x <- Fraction_ctor 2 6 ;; b <- operator_eq athird x ;;
  let cout := printAndCheck_bool cout "One third == two sixth" b true in
  x <- Fraction_ctor 3 6 ;; b <- operator_ne athird x ;;
  let cout := printAndCheck_bool cout "One third != three sixth" b true in
  afourth <- Fraction_ctor 1 4 ;;
  b <- operator_lt athird athird ;;
  let cout := printAndCheck_bool cout "athird < athird" b false in
  b <- operator_lt afourth athird ;;
  let cout := printAndCheck_bool cout "afourth < athird" b true in
  b <- operator_le athird athird ;;
  let cout := printAndCheck_bool cout "athird  <= athird" b true in
  b <- operator_le athird afourth ;;
  let cout := printAndCheck_bool cout "athird  <= afourth" b false in
  b <- operator_gt athird athird ;;
  let cout := printAndCheck_bool cout "athird  > athird" b false in
  b <- operator_gt afourth athird ;;
  let cout := printAndCheck_bool cout "afourth > athird" b false in
  b <- operator_ge athird athird ;;
  let cout := printAndCheck_bool cout "athird >= athird" b true in
  b <- operator_ge athird afourth ;;
  let cout := printAndCheck_bool cout "athird >= afourth" b true in
  Returns (cout, 0).

(** One line of the report that [main] prints. *)
Definition report_line (what result : string) : string :=
  (what ++ spaces (40 - String.length what) ++ ": PASS    " ++ result ++ newline)%string.

(** ** Vectors of pointers and the free store (the smart-pointer exercise) *)

(** The address of a [LargeObject]. *)
Definition pointer : Type := nat.

(** [collection.erase(collection.begin() + pos)]; the iterator has to point
    to an element. *)
Definition erase (collection : list pointer) (pos : nat) : outcome (list pointer) :=
  if (pos <? List.length collection)%nat
  then Returns (firstn pos collection ++ skipn (S pos) collection)
  else Undefined.

(** [void removeMiddle(std::vector<LargeObject*>& collection)] *)
Definition removeMiddle (collection : list pointer) : outcome (list pointer) :=
  let middlePosition := (List.length collection / 2)%nat in
  erase collection middlePosition.

(** [void removeRandom(std::vector<LargeObject*>& collection)]; [now] is the
    value of [time(nullptr)] as a [size_t].  The remainder by a size of zero
    is undefined. *)
Definition removeRandom (now : nat) (collection : list pointer)
    : outcome (list pointer) :=
  if (List.length collection =? 0)%nat then Undefined
  else
    let pos := (now mod List.length collection)%nat in
    erase collection pos.

(** [std::find(v.begin(), v.end(), p) != v.end()] *)
Definition found (v : list pointer) (p : pointer) : bool :=
  existsb (Nat.eqb p) v.

(** The free store is the list of the objects that are alive. *)
Definition free_store : Type := list pointer.

(** [delete p]: the object has to be alive. *)
Definition delete (p : pointer) (h : free_store) : outcome free_store :=
  if found h p then Returns (filter (fun q => negb (Nat.eqb q p)) h)
  else Undefined.

(** [for (auto objPtr : v) delete objPtr;] *)
Fixpoint delete_each (v : list pointer) (h : free_store) : outcome free_store :=
  match v with
  | [] => Returns h
  | objPtr :: v' => h' <- delete objPtr h ;; delete_each v' h'
  end.

(** [for (auto objPtr : v) if (std::find(...objVector..., objPtr) ==
    objVector.end()) delete objPtr;] *)
Fixpoint delete_unless_found (objVector v : list pointer) (h : free_store)
    : outcome free_store :=
  match v with
  | [] => Returns h
  | objPtr :: v' =>
      if found objVector objPtr then delete_unless_found objVector v' h
      else h' <- delete objPtr h ;; delete_unless_found objVector v' h'
  end.

Section FreeStore.

(** [new LargeObject()] picks an address that no live object has. *)
Variable fresh : free_store -> pointer.

(** [for (auto& ptr : objVector) ptr = new LargeObject();] on a vector of
    [n] elements: the pointers in the order of the elements, and the free
    store afterwards. *)
Fixpoint fill_new (n : nat) (h : free_store) : list pointer * free_store :=
  match n with
  | O => ([], h)
  | S n' =>
      let ptr := fresh h in
      let (v, h') := fill_new n' (ptr :: h) in
      (ptr :: v, h')
  end.

(** [void problem3()]; [processElement] does nothing. *)
Definition problem3 (now : nat) (h : free_store) : outcome free_store :=
  let (objVector, h) := fill_new 10 h in
  let objVectorCopy := objVector in
  objVector <- removeMiddle objVector ;;
  objVectorCopy <- removeRandom now objVectorCopy ;;
  h <- delete_each objVector h ;;
  h <- delete_unless_found objVector objVectorCopy h ;;
  Returns h.

End FreeStore.

(** An allocator for running [problem3]: one past the largest live address. *)
Definition next_address (h : free_store) : pointer := S (list_max h).

(** ** The checks of [main] *)

Definition three : Fraction := {| m_num := 3; m_denom := 1 |}.
Definition athird : Fraction := {| m_num := 1; m_denom := 3 |}.
Definition afourth : Fraction := {| m_num := 1; m_denom := 4 |}.

Example main_three : Fraction_ctor1 3 = Returns three.
Proof. reflexivity. Qed.

Example main_print_three : render three = "3/1"%string.
Proof. reflexivity. Qed.

Example main_two_times_athird :
  operator_mul_uint_Fraction 2 athird = Returns (mkFraction 2 3).
Proof. reflexivity. Qed.

Example main_three_times_athird :
  operator_mul_Fraction three athird = Returns (mkFraction 1 1).
Proof. reflexivity. Qed.

Example main_athird_eq_two_sixth :
  operator_eq athird (mkFraction 2 6) = Returns true.
Proof. reflexivity. Qed.

Example main_athird_ne_three_sixth :
  operator_ne athird (mkFraction 3 6) = Returns true.
Proof. reflexivity. Qed.

Example main_afourth_lt_athird : operator_lt afourth athird = Returns true.
Proof. reflexivity. Qed.

Example main_athird_le_afourth : operator_le athird afourth = Returns false.
Proof. reflexivity. Qed.

Example main_athird_ge_afourth : operator_ge athird afourth = Returns true.
Proof. reflexivity. Qed.

(** ** Machine integers *)

Section MachineIntegers.

Lemma uint_modulus_eq : uint_modulus = 4294967296.
Proof. reflexivity. Qed.

(** Going through [int] and back does not change an [unsigned int]. *)
Lemma uint_of_int_of_uint (x : Z) :
  is_uint x -> uint_of_int (int_of_uint x) = x.
Proof.
  unfold is_uint, uint_of_int, int_of_uint.
  rewrite uint_modulus_eq. intros Hx.
  destruct (x <? 2 ^ 31).
  - apply Z.mod_small; lia.
  - replace (x - 4294967296) with (x + (-1) * 4294967296) by lia.
    rewrite Z.mod_add by lia. apply Z.mod_small; lia.
Qed.

Lemma umul_is_uint (a b : Z) : is_uint (umul a b).
Proof.
  unfold is_uint, umul. rewrite uint_modulus_eq.
  apply Z.mod_pos_bound; lia.
Qed.

(** A product that fits is not changed by the wrap-around. *)
Lemma umul_small (a b : Z) :
  0 <= a -> 0 <= b -> a * b < uint_modulus -> umul a b = a * b.
Proof.
  intros Ha Hb Hab. unfold umul. apply Z.mod_small. nia.
Qed.

Lemma std_gcd_is_uint (m n : Z) :
  is_uint m -> is_uint n -> is_uint (std_gcd m n).
Proof.
  unfold is_uint, std_gcd. intros Hm Hn.
  split; [apply Z.gcd_nonneg|].
  destruct (Z.eq_dec m 0) as [->|Hm0].
  - rewrite Z.gcd_0_l, Z.abs_eq; lia.
  - pose proof (Z.gcd_divide_l m n) as Hd.
    apply Z.divide_pos_le in Hd; lia.
Qed.

Lemma std_gcd_pos (m n : Z) : m <> 0 \/ n <> 0 -> 0 < std_gcd m n.
Proof.
  unfold std_gcd. intros H.
  pose proof (Z.gcd_nonneg m n).
  assert (Z.gcd m n <> 0) by (rewrite Z.gcd_eq_0; lia).
  lia.
Qed.

(** The divisor that [normalize] ends up dividing by. *)
Lemma normalize_divisor (m n : Z) :
  is_uint m -> is_uint n ->
  uint_of_int (int_of_uint (std_gcd m n)) = Z.gcd m n.
Proof.
  intros Hm Hn. apply uint_of_int_of_uint, std_gcd_is_uint; assumption.
Qed.

End MachineIntegers.

(** ** Reduced forms over the integers *)

Section Reduced.

Variable f : Fraction.
Hypothesis Hrange : in_range f.
Hypothesis Hnz : not_both_zero f.

Let g := Z.gcd (m_num f) (m_denom f).

Lemma reduced_gcd_pos : 0 < g.
Proof. apply (std_gcd_pos _ _ Hnz). Qed.

Lemma reduced_num_eq : m_num f = g * m_num (reduced f).
Proof.
  unfold reduced; simpl. fold g.
  apply Zdivide_Zdiv_eq; [apply reduced_gcd_pos | apply Z.gcd_divide_l].
Qed.

Lemma reduced_denom_eq : m_denom f = g * m_denom (reduced f).
Proof.
  unfold reduced; simpl. fold g.
  apply Zdivide_Zdiv_eq; [apply reduced_gcd_pos | apply Z.gcd_divide_r].
Qed.

Lemma reduced_is_reduced : is_reduced (reduced f).
Proof.
  unfold is_reduced, reduced; simpl.
  pose proof reduced_gcd_pos.
  apply Z.gcd_div_gcd; [fold g; lia | reflexivity].
Qed.

Lemma reduced_in_range : in_range (reduced f).
Proof.
  pose proof reduced_gcd_pos as Hg.
  pose proof reduced_num_eq as Hn. pose proof reduced_denom_eq as Hd.
  destruct Hrange as [[Hn0 Hn1] [Hd0 Hd1]].
  assert (0 <= m_num (reduced f)) by (unfold reduced; simpl; apply Z.div_pos; [lia | apply Hg]).
  assert (0 <= m_denom (reduced f)) by (unfold reduced; simpl; apply Z.div_pos; [lia | apply Hg]).
  unfold in_range, is_uint. nia.
Qed.

Lemma reduced_not_both_zero : not_both_zero (reduced f).
Proof.
  pose proof reduced_is_reduced as H. unfold is_reduced in H.
  unfold not_both_zero.
  destruct (Z.eq_dec (m_num (reduced f)) 0) as [E|E]; [right | left; exact E].
  intros E'. rewrite E, E' in H. discriminate H.
Qed.

(** The zero value reduces to 0/1. *)
Lemma reduced_zero : m_num f = 0 -> reduced f = mkFraction 0 1.
Proof.
  intros E. unfold reduced. rewrite E, Z.gcd_0_l.
  destruct Hnz as [H|H]; [contradiction|].
  destruct Hrange as [_ [Hd0 _]].
  rewrite Z.abs_eq by lia. simpl.
  rewrite Z.div_same by exact H. reflexivity.
Qed.

(** On a pair that is not 0/0, [normalize] returns the reduced form. *)
Lemma normalize_reduced : normalize f = Returns (reduced f).
Proof.
  pose proof reduced_gcd_pos as Hg.
  destruct Hrange as [Hn Hd].
  unfold normalize. rewrite (normalize_divisor _ _ Hn Hd). fold g.
  unfold udiv. destruct (Z.eqb_spec g 0) as [E|_]; [lia|].
  reflexivity.
Qed.

End Reduced.

(** ** The reduction step *)

Section Normalize.

Lemma normalize_zero_zero : normalize (mkFraction 0 0) = Undefined.
Proof. reflexivity. Qed.

(** [normalize] divides by zero exactly on the pair 0/0. *)
Lemma normalize_undefined_iff (f : Fraction) :
  in_range f ->
  (normalize f = Undefined <-> m_num f = 0 /\ m_denom f = 0).
Proof.
  intros Hr. split.
  - intros Hu.
    destruct (Z.eq_dec (m_num f) 0) as [En|En];
      [destruct (Z.eq_dec (m_denom f) 0) as [Ed|Ed]; [tauto|] |].
    + rewrite (normalize_reduced f Hr (or_intror Ed)) in Hu. discriminate Hu.
    + rewrite (normalize_reduced f Hr (or_introl En)) in Hu. discriminate Hu.
  - intros [En Ed]. destruct f as [n d]; simpl in *. subst. reflexivity.
Qed.

(** [normalize] never throws. *)
Lemma normalize_no_throw (f : Fraction) (what : string) :
  normalize f <> Throws what.
Proof.
  unfold normalize, udiv.
  destruct (_ =? 0); simpl; discriminate.
Qed.

(** A pair in lowest terms is its own reduced form. *)
Lemma reduced_of_is_reduced (f : Fraction) : is_reduced f -> reduced f = f.
Proof.
  unfold is_reduced, reduced. intros ->.
  rewrite !Z.div_1_r. destruct f; reflexivity.
Qed.

(** Normalising twice is the same as normalising once. *)
Lemma normalize_twice (f : Fraction) :
  in_range f -> not_both_zero f ->
  (rr <- normalize f ;; normalize rr) = Returns (reduced f).
Proof.
  intros Hr Hz. rewrite (normalize_reduced f Hr Hz). simpl.
  rewrite normalize_reduced.
  - rewrite reduced_of_is_reduced; [reflexivity|].
    apply reduced_is_reduced; assumption.
  - apply reduced_in_range; assumption.
  - apply reduced_not_both_zero; assumption.
Qed.

End Normalize.

(** ** Lowest terms and cross products *)

Section LowestTerms.

(** Two pairs in lowest terms with equal cross products are the same pair. *)
Lemma lowest_terms_unique (x y : Fraction) :
  0 <= m_num x -> 0 <= m_denom x -> 0 <= m_num y -> 0 <= m_denom y ->
  is_reduced x -> is_reduced y ->
  m_num x * m_denom y = m_num y * m_denom x ->
  x = y.
Proof.
  destruct x as [xn xd], y as [yn yd]; unfold is_reduced; simpl.
  intros Hxn Hxd Hyn Hyd Gx Gy Hc.
  assert (Dxy : (xn | yn)).
  { apply Z.gauss with (m := xd); [|exact Gx].
    exists yd. lia. }
  assert (Dyx : (yn | xn)).
  { apply Z.gauss with (m := yd); [|exact Gy].
    exists xd. lia. }
  assert (En : xn = yn) by (apply Z.divide_antisym_nonneg; assumption).
  subst yn.
  destruct (Z.eq_dec xn 0) as [->|Hnz].
  - rewrite Z.gcd_0_l in Gx, Gy. f_equal. lia.
  - f_equal. apply Z.mul_reg_l with (p := xn); [exact Hnz | lia].
Qed.

(** Cross products of two pairs and of their reduced forms compare alike. *)
Lemma cross_products_scale (a b : Fraction) :
  in_range a -> in_range b -> not_both_zero a -> not_both_zero b ->
  m_num a * m_denom b - m_num b * m_denom a =
  (Z.gcd (m_num a) (m_denom a) * Z.gcd (m_num b) (m_denom b)) *
  (m_num (reduced a) * m_denom (reduced b) -
   m_num (reduced b) * m_denom (reduced a)).
Proof.
  intros Ha Hb Za Zb.
  pose proof (reduced_num_eq a Za) as En. pose proof (reduced_denom_eq a Za) as Ed.
  pose proof (reduced_num_eq b Zb) as En'. pose proof (reduced_denom_eq b Zb) as Ed'.
  remember (Z.gcd (m_num a) (m_denom a)) as ga.
  remember (Z.gcd (m_num b) (m_denom b)) as gb.
  remember (reduced a) as ra. remember (reduced b) as rb.
  rewrite En, Ed, En', Ed'. ring.
Qed.

Lemma cross_products_lt (a b : Fraction) :
  in_range a -> in_range b -> not_both_zero a -> not_both_zero b ->
  (m_num a * m_denom b < m_num b * m_denom a <->
   m_num (reduced a) * m_denom (reduced b) <
   m_num (reduced b) * m_denom (reduced a)).
Proof.
  intros Ha Hb Za Zb.
  pose proof (cross_products_scale a b Ha Hb Za Zb) as E.
  pose proof (reduced_gcd_pos a Za) as Ga.
  pose proof (reduced_gcd_pos b Zb) as Gb.
  assert (G : 0 < Z.gcd (m_num a) (m_denom a) * Z.gcd (m_num b) (m_denom b))
    by (apply Z.mul_pos_pos; assumption).
  split; intros H; nia.
Qed.

Lemma cross_products_eq (a b : Fraction) :
  in_range a -> in_range b -> not_both_zero a -> not_both_zero b ->
  (m_num a * m_denom b = m_num b * m_denom a <-> reduced a = reduced b).
Proof.
  intros Ha Hb Za Zb.
  pose proof (cross_products_scale a b Ha Hb Za Zb) as E.
  pose proof (reduced_gcd_pos a Za) as Ga.
  pose proof (reduced_gcd_pos b Zb) as Gb.
  assert (G : 0 < Z.gcd (m_num a) (m_denom a) * Z.gcd (m_num b) (m_denom b))
    by (apply Z.mul_pos_pos; assumption).
  pose proof (reduced_in_range a Ha Za) as [[Ran _] [Rad _]].
  pose proof (reduced_in_range b Hb Zb) as [[Rbn _] [Rbd _]].
  split; intros Heq.
  - apply lowest_terms_unique; try assumption;
      try (apply reduced_is_reduced; assumption).
    nia.
  - rewrite Heq in E. nia.
Qed.

End LowestTerms.

(** ** The relational operators on operands that are not 0/0 *)

Section Relational.

Variables a b : Fraction.
Hypothesis Ha : in_range a.
Hypothesis Hb : in_range b.
Hypothesis Za : not_both_zero a.
Hypothesis Zb : not_both_zero b.

Lemma operator_eq_reduced :
  operator_eq a b =
  Returns ((m_num (reduced a) =? m_num (reduced b)) &&
           (m_denom (reduced a) =? m_denom (reduced b)))%bool.
Proof.
  unfold operator_eq.
  rewrite (normalize_reduced a Ha Za), (normalize_reduced b Hb Zb).
  reflexivity.
Qed.

Lemma operator_lt_reduced :
  operator_lt a b =
  Returns (umul (m_num (reduced a)) (m_denom (reduced b)) <?
           umul (m_num (reduced b)) (m_denom (reduced a))).
Proof.
  unfold operator_lt.
  rewrite (normalize_reduced a Ha Za), (normalize_reduced b Hb Zb).
  reflexivity.
Qed.

Lemma operator_gt_reduced :
  operator_gt a b =
  Returns (umul (m_num (reduced a)) (m_denom (reduced b)) >?
           umul (m_num (reduced b)) (m_denom (reduced a))).
Proof.
  unfold operator_gt.
  rewrite (normalize_reduced a Ha Za), (normalize_reduced b Hb Zb).
  reflexivity.
Qed.

Lemma fields_eqb_iff (x y : Fraction) :
  ((m_num x =? m_num y) && (m_denom x =? m_denom y))%bool = true <-> x = y.
Proof.
  destruct x as [xn xd], y as [yn yd]; simpl.
  rewrite andb_true_iff, !Z.eqb_eq.
  split; [intros [-> ->]; reflexivity | intros E; inversion E; auto].
Qed.

(** Without wrap-around the products compared by [operator<] are the
    integer cross products of the reduced forms. *)
Lemma umul_cross_fit :
  cross_products_fit a b ->
  umul (m_num (reduced a)) (m_denom (reduced b)) =
    m_num (reduced a) * m_denom (reduced b) /\
  umul (m_num (reduced b)) (m_denom (reduced a)) =
    m_num (reduced b) * m_denom (reduced a).
Proof.
  intros [F1 F2].
  pose proof (reduced_in_range a Ha Za) as [[? _] [? _]].
  pose proof (reduced_in_range b Hb Zb) as [[? _] [? _]].
  split; apply umul_small; assumption.
Qed.

End Relational.

(** ** The multiplication operators *)

Section Multiplication.

Lemma bind_Returns {A : Type} (m : outcome A) : (x <- m ;; Returns x) = m.
Proof. destruct m; reflexivity. Qed.

Lemma in_range_dec_zero (f : Fraction) :
  in_range f -> f = mkFraction 0 0 \/ not_both_zero f.
Proof.
  intros _. destruct f as [n d]. unfold not_both_zero; simpl.
  destruct (Z.eq_dec n 0) as [->|Hn]; [|right; left; exact Hn].
  destruct (Z.eq_dec d 0) as [->|Hd]; [left; reflexivity | right; right; exact Hd].
Qed.

(** The second call of [normalize] in the scaling operators changes nothing. *)
Lemma normalize_then_normalize (f : Fraction) :
  in_range f -> (rr <- normalize f ;; normalize rr) = normalize f.
Proof.
  intros Hr. destruct (in_range_dec_zero f Hr) as [->|Hz].
  - reflexivity.
  - rewrite normalize_twice by assumption.
    symmetry. apply normalize_reduced; assumption.
Qed.

Lemma scaled_in_range (f : Fraction) (coeff : Z) :
  in_range f -> in_range (scaled f coeff).
Proof.
  intros [_ Hd]. split; [apply umul_is_uint | exact Hd].
Qed.

Lemma product_in_range (l r : Fraction) : in_range (product l r).
Proof. split; apply umul_is_uint. Qed.

Lemma operator_mul_assign_normalize (this : Fraction) (coeff : Z) :
  operator_mul_assign this coeff = normalize (scaled this coeff).
Proof. reflexivity. Qed.

Lemma operator_mul_normalize (this : Fraction) (coeff : Z) :
  in_range this ->
  operator_mul this coeff = normalize (scaled this coeff).
Proof.
  intros Hr. unfold operator_mul, Fraction_ctor, operator_mul_assign. simpl.
  fold (scaled this coeff).
  transitivity (rr <- normalize (scaled this coeff) ;; normalize rr).
  - destruct (normalize (scaled this coeff)) as [r| |]; simpl;
      [apply bind_Returns | reflexivity | reflexivity].
  - apply normalize_then_normalize, scaled_in_range, Hr.
Qed.

Lemma operator_mul_uint_Fraction_normalize (coeff : Z) (r : Fraction) :
  in_range r ->
  operator_mul_uint_Fraction coeff r = normalize (scaled r coeff).
Proof. apply operator_mul_normalize. Qed.

Lemma operator_mul_Fraction_normalize (l r : Fraction) :
  operator_mul_Fraction l r = normalize (product l r).
Proof.
  unfold operator_mul_Fraction, Fraction_ctor. simpl.
  fold (product l r). apply bind_Returns.
Qed.

Lemma operator_mul_assign_Fraction_normalize (this r : Fraction) :
  operator_mul_assign_Fraction this r = normalize (product this r).
Proof. reflexivity. Qed.

Lemma normalize_stores_reduced (f : Fraction) :
  in_range f -> not_both_zero f -> stores_reduced (normalize f).
Proof.
  intros Hr Hz. exists (reduced f).
  pose proof (reduced_is_reduced f Hz) as G.
  pose proof (reduced_in_range f Hr Hz) as R.
  repeat split; try apply R; try exact G.
  - apply normalize_reduced; assumption.
  - unfold is_reduced in G. intros E. rewrite E, Z.gcd_0_l in G.
    destruct R as [_ [Hd _]]. lia.
Qed.

End Multiplication.

(** ** Properties of construction and multiplication *)

(** Closes a goal about concrete numbers by evaluation. *)
Ltac by_evaluation :=
  vm_compute; repeat split; intros; try discriminate; try reflexivity.

(** C1, as stated, fails at construction: the constructor keeps the pair it is
    given, so the value built from 2 and 6 holds 2/6, whose gcd is 2. *)
Lemma construction_keeps_unreduced_pair :
  Fraction_ctor 2 6 = Returns (mkFraction 2 6) /\
  6 <> 0 /\
  ~ is_reduced (mkFraction 2 6).
Proof. by_evaluation. Qed.

(** C1 (amended): construction stores the pair as given; every multiplication
    operator (member [a * k], free [k * a], [a * b], [a *= k], [a *= b]) whose
    resulting denominator is not zero completes and leaves a pair in lowest
    terms, gcd = 1, with the zero value held as 0/1. *)
Theorem multiplication_stores_reduced_pair (a b : Fraction) (coeff : Z) :
  in_range a ->
  m_denom a <> 0 ->
  umul (m_denom a) (m_denom b) <> 0 ->
  (forall num denom, Fraction_ctor num denom = Returns (mkFraction num denom)) /\
  stores_reduced (operator_mul a coeff) /\
  stores_reduced (operator_mul_uint_Fraction coeff a) /\
  stores_reduced (operator_mul_assign a coeff) /\
  stores_reduced (operator_mul_Fraction a b) /\
  stores_reduced (operator_mul_assign_Fraction a b).
Proof.
  intros Ha Hd Hp.
  assert (S : stores_reduced (normalize (scaled a coeff))).
  { apply normalize_stores_reduced; [apply scaled_in_range, Ha | right; exact Hd]. }
  assert (P : stores_reduced (normalize (product a b))).
  { apply normalize_stores_reduced; [apply product_in_range | right; exact Hp]. }
  rewrite operator_mul_normalize, operator_mul_uint_Fraction_normalize by exact Ha.
  rewrite operator_mul_assign_normalize, operator_mul_Fraction_normalize,
    operator_mul_assign_Fraction_normalize.
  repeat split; assumption.
Qed.

Lemma multiplication_stores_reduced_pair_witness :
  stores_reduced (operator_mul (mkFraction 2 6) 3) /\
  stores_reduced (operator_mul_Fraction (mkFraction 2 6) (mkFraction 0 4)).
Proof.
  destruct (multiplication_stores_reduced_pair (mkFraction 2 6) (mkFraction 0 4) 3)
    as (_ & M & _ & _ & P & _).
  - by_evaluation.
  - by_evaluation.
  - by_evaluation.
  - split; [exact M | exact P].
Defined.

(** C2, as stated, fails: the constructor has no check of the denominator, so
    building 1/0 completes and nothing is thrown. *)
Lemma zero_denominator_is_accepted :
  Fraction_ctor 1 0 = Returns (mkFraction 1 0) /\
  forall what, Fraction_ctor 1 0 <> Throws what.
Proof. by_evaluation. Qed.

(** C2 (amended): for every numerator n, construction with denominator 0
    completes without an error and stores n/0 unchanged; what follows is
    decided by the later reduction, which turns n/0 into 1/0 for n <> 0 and
    divides by zero for n = 0. *)
Theorem zero_denominator_construction (n : Z) :
  is_uint n ->
  exists f,
    Fraction_ctor n 0 = Returns f /\ m_num f = n /\ m_denom f = 0 /\
    (n <> 0 -> normalize f = Returns (mkFraction 1 0)) /\
    (n = 0 -> normalize f = Undefined).
Proof.
  intros Hn. exists (mkFraction n 0). repeat split.
  - intros Hz.
    rewrite normalize_reduced; [| split; [exact Hn | by_evaluation] | left; exact Hz].
    unfold reduced; simpl.
    rewrite Z.gcd_0_r, Z.abs_eq by (destruct Hn; lia).
    rewrite Z.div_same by exact Hz. rewrite Z.div_0_l by exact Hz. reflexivity.
  - intros ->. reflexivity.
Qed.

Lemma zero_denominator_construction_witness :
  exists f,
    Fraction_ctor 5 0 = Returns f /\ m_num f = 5 /\ m_denom f = 0 /\
    (5 <> 0 -> normalize f = Returns (mkFraction 1 0)) /\
    (5 = 0 -> normalize f = Undefined).
Proof.
  apply (zero_denominator_construction 5). by_evaluation.
Defined.

(** C8: for every Fraction a and every coefficient k, the member form [a * k]
    and the free form [k * a] evaluate to the same outcome. *)
Theorem scaling_forms_agree (a : Fraction) (k : Z) :
  operator_mul a k = operator_mul_uint_Fraction k a.
Proof.
  unfold operator_mul, operator_mul_uint_Fraction. reflexivity.
Qed.

(** C9, as stated, fails when a product leaves the unsigned range:
    65536/1 times 65536/1 is the rational 4294967296/1, the code returns 0/1;
    and 65536/65536 times 65536/65536, the rational 1/1, returns nothing,
    because both products wrap around to 0 and the reduction divides by
    zero. *)
Lemma product_wraps_around :
  operator_mul_Fraction (mkFraction 65536 1) (mkFraction 65536 1) =
    Returns (mkFraction 0 1) /\
  reduced (mkFraction (65536 * 65536) (1 * 1)) = mkFraction 4294967296 1 /\
  mkFraction 0 1 <> mkFraction 4294967296 1 /\
  operator_mul_Fraction (mkFraction 65536 65536) (mkFraction 65536 65536) =
    Undefined.
Proof. by_evaluation. Qed.

(** C9 (amended): when the product of the numerators and the product of the
    denominators both fit in an unsigned int and are not both zero,
    [a * b] returns the reduced form of
    (a.numerator * b.numerator) / (a.denominator * b.denominator);
    3 times 1/3 is 1/1, which is also [==] to the Fraction built from 1. *)
Theorem product_is_reduced_product (a b : Fraction) :
  in_range a -> in_range b ->
  m_num a * m_num b < uint_modulus ->
  m_denom a * m_denom b < uint_modulus ->
  m_num a * m_num b <> 0 \/ m_denom a * m_denom b <> 0 ->
  operator_mul_Fraction a b =
    Returns (reduced (mkFraction (m_num a * m_num b) (m_denom a * m_denom b))) /\
  (x <- Fraction_ctor1 3 ;; y <- Fraction_ctor 1 3 ;; operator_mul_Fraction x y)
    = Fraction_ctor1 1 /\
  (x <- Fraction_ctor1 3 ;; y <- Fraction_ctor 1 3 ;;
   p <- operator_mul_Fraction x y ;; one <- Fraction_ctor1 1 ;;
   operator_eq p one) = Returns true.
Proof.
  intros [[Han _] [Had _]] [[Hbn _] [Hbd _]] Fn Fd Hz.
  split; [|split; reflexivity].
  rewrite operator_mul_Fraction_normalize. unfold product.
  rewrite !umul_small by assumption.
  apply normalize_reduced.
  - unfold in_range, is_uint; simpl. nia.
  - exact Hz.
Qed.

Lemma product_is_reduced_product_witness :
  operator_mul_Fraction (mkFraction 2 3) (mkFraction 3 4) =
    Returns (mkFraction 1 2).
Proof.
  destruct (product_is_reduced_product (mkFraction 2 3) (mkFraction 3 4))
    as [E _].
  - by_evaluation.
  - by_evaluation.
  - by_evaluation.
  - by_evaluation.
  - left. by_evaluation.
  - exact E.
Defined.

(** ** Properties of the relational operators *)

(** C4: for Fractions a and b (unsigned fields, not 0/0), [a == b] is true
    exactly when the reduced pair of a is the reduced pair of b, and false
    exactly when they differ; the values built from 2, 6 and from 1, 3 are
    equal. *)
Theorem equality_is_equality_of_reduced_pairs (a b : Fraction) :
  in_range a -> in_range b -> not_both_zero a -> not_both_zero b ->
  (operator_eq a b = Returns true <-> reduced a = reduced b) /\
  (operator_eq a b = Returns false <-> reduced a <> reduced b) /\
  (x <- Fraction_ctor 2 6 ;; y <- Fraction_ctor 1 3 ;; operator_eq x y)
    = Returns true.
Proof.
  intros Ha Hb Za Zb.
  rewrite (operator_eq_reduced a b Ha Hb Za Zb).
  pose proof (fields_eqb_iff (reduced a) (reduced b)) as E.
  destruct ((m_num (reduced a) =? m_num (reduced b)) &&
            (m_denom (reduced a) =? m_denom (reduced b)))%bool.
  - assert (R : reduced a = reduced b) by (apply E; reflexivity).
    split; [|split; [|reflexivity]]; split; intros H;
      [exact R | reflexivity | discriminate H | contradiction].
  - assert (N : reduced a <> reduced b).
    { intros R. apply E in R. discriminate R. }
    split; [|split; [|reflexivity]]; split; intros H;
      [discriminate H | contradiction | exact N | reflexivity].
Qed.

Lemma equality_is_equality_of_reduced_pairs_witness :
  operator_eq (mkFraction 4 6) (mkFraction 6 9) = Returns true.
Proof.
  destruct (equality_is_equality_of_reduced_pairs (mkFraction 4 6) (mkFraction 6 9))
    as [[_ E] _].
  - by_evaluation.
  - by_evaluation.
  - left. by_evaluation.
  - left. by_evaluation.
  - apply E. reflexivity.
Defined.

(** C5, as stated, fails when a cross product leaves the unsigned range:
    98304/131073 is reported as less than 65536/131073.  The left operand
    reduces to 32768/43691, and 32768 * 131073 = 2^32 + 32768 wraps around to
    32768, which is below 65536 * 43691.  The cross products of the values as
    constructed say the opposite, over the integers and also when they are
    taken modulo 2^32. *)
Lemma less_than_wraps_around :
  operator_lt (mkFraction 98304 131073) (mkFraction 65536 131073)
    = Returns true /\
  ~ (m_num (mkFraction 98304 131073) * m_denom (mkFraction 65536 131073) <
     m_num (mkFraction 65536 131073) * m_denom (mkFraction 98304 131073)) /\
  (umul 98304 131073 <? umul 65536 131073) = false.
Proof. by_evaluation. Qed.

(** C5 (amended): when the two cross products of the reduced forms fit in an
    unsigned int, [a < b] is true exactly when
    a.numerator * b.denominator < b.numerator * a.denominator over the
    integers, on the values as constructed, and false otherwise. *)
Theorem less_than_is_cross_multiplication (a b : Fraction) :
  in_range a -> in_range b -> not_both_zero a -> not_both_zero b ->
  cross_products_fit a b ->
  (operator_lt a b = Returns true <->
   m_num a * m_denom b < m_num b * m_denom a) /\
  (operator_lt a b = Returns false <->
   ~ m_num a * m_denom b < m_num b * m_denom a).
Proof.
  intros Ha Hb Za Zb Hfit.
  rewrite (operator_lt_reduced a b Ha Hb Za Zb).
  destruct (umul_cross_fit a b Ha Hb Za Zb Hfit) as [-> ->].
  rewrite (cross_products_lt a b Ha Hb Za Zb).
  destruct (Z.ltb_spec (m_num (reduced a) * m_denom (reduced b))
                       (m_num (reduced b) * m_denom (reduced a))) as [L|L];
    repeat split; intros; try reflexivity; try discriminate; try lia.
Qed.

Lemma less_than_is_cross_multiplication_witness :
  operator_lt (mkFraction 2 8) (mkFraction 3 9) = Returns true.
Proof.
  destruct (less_than_is_cross_multiplication (mkFraction 2 8) (mkFraction 3 9))
    as [[_ L] _].
  - by_evaluation.
  - by_evaluation.
  - left. by_evaluation.
  - left. by_evaluation.
  - by_evaluation.
  - apply L. by_evaluation.
Defined.

(** C6, as stated, fails when a cross product leaves the unsigned range: for
    641/1 and 1/6700417 the product 641 * 6700417 = 2^32 + 1 wraps around to
    1, and none of [a < b], [a == b], [b < a] holds. *)
Lemma trichotomy_wraps_around :
  operator_lt (mkFraction 641 1) (mkFraction 1 6700417) = Returns false /\
  operator_eq (mkFraction 641 1) (mkFraction 1 6700417) = Returns false /\
  operator_lt (mkFraction 1 6700417) (mkFraction 641 1) = Returns false.
Proof. by_evaluation. Qed.

(** C6 (amended): when the two cross products of the reduced forms fit in an
    unsigned int, the three comparisons [a < b], [a == b], [b < a] all
    complete and exactly one of them is true. *)
Theorem less_than_trichotomy (a b : Fraction) :
  in_range a -> in_range b -> not_both_zero a -> not_both_zero b ->
  cross_products_fit a b ->
  exists lt eq gt,
    operator_lt a b = Returns lt /\
    operator_eq a b = Returns eq /\
    operator_lt b a = Returns gt /\
    exactly_one lt eq gt = true.
Proof.
  intros Ha Hb Za Zb Hfit.
  rewrite (operator_lt_reduced a b Ha Hb Za Zb).
  rewrite (operator_lt_reduced b a Hb Ha Zb Za).
  rewrite (operator_eq_reduced a b Ha Hb Za Zb).
  destruct (umul_cross_fit a b Ha Hb Za Zb Hfit) as [-> ->].
  do 3 eexists. repeat split.
  pose proof (fields_eqb_iff (reduced a) (reduced b)) as E.
  pose proof (cross_products_eq a b Ha Hb Za Zb) as C.
  pose proof (cross_products_scale a b Ha Hb Za Zb) as S.
  pose proof (reduced_gcd_pos a Za) as Ga.
  pose proof (reduced_gcd_pos b Zb) as Gb.
  destruct ((m_num (reduced a) =? m_num (reduced b)) &&
            (m_denom (reduced a) =? m_denom (reduced b)))%bool.
  - assert (R : reduced a = reduced b) by (apply E; reflexivity).
    rewrite R. rewrite Z.ltb_irrefl. reflexivity.
  - assert (N : m_num a * m_denom b <> m_num b * m_denom a).
    { intros X. apply C, E in X. discriminate X. }
    destruct (Z.ltb_spec (m_num (reduced a) * m_denom (reduced b))
                         (m_num (reduced b) * m_denom (reduced a))) as [L|L];
    destruct (Z.ltb_spec (m_num (reduced b) * m_denom (reduced a))
                         (m_num (reduced a) * m_denom (reduced b))) as [L'|L'];
      try reflexivity; exfalso; try lia.
    apply N.
    assert (P : m_num (reduced a) * m_denom (reduced b) =
                m_num (reduced b) * m_denom (reduced a)) by lia.
    rewrite P, Z.sub_diag, Z.mul_0_r in S. lia.
Qed.

Lemma less_than_trichotomy_witness :
  exists lt eq gt,
    operator_lt (mkFraction 1 4) (mkFraction 1 3) = Returns lt /\
    operator_eq (mkFraction 1 4) (mkFraction 1 3) = Returns eq /\
    operator_lt (mkFraction 1 3) (mkFraction 1 4) = Returns gt /\
    exactly_one lt eq gt = true.
Proof.
  apply (less_than_trichotomy (mkFraction 1 4) (mkFraction 1 3)).
  - by_evaluation.
  - by_evaluation.
  - left. by_evaluation.
  - left. by_evaluation.
  - by_evaluation.
Defined.

(** C7, as stated, fails when a cross product leaves the unsigned range: for
    7/3 and 1/613566757 the product 7 * 613566757 = 2^32 + 3 wraps around to
    3 = 1 * 3, so [a < b] is false and [a >= b] is false as well. *)
Lemma greater_or_equal_wraps_around :
  operator_lt (mkFraction 7 3) (mkFraction 1 613566757) = Returns false /\
  operator_ge (mkFraction 7 3) (mkFraction 1 613566757) = Returns false /\
  operator_ge (mkFraction 7 3) (mkFraction 1 613566757) <>
    fmap negb (operator_lt (mkFraction 7 3) (mkFraction 1 613566757)).
Proof. by_evaluation. Qed.

(** C7 (amended): when the two cross products of the reduced forms fit in an
    unsigned int, [a >= b] evaluates to the negation of [a < b]. *)
Theorem greater_or_equal_is_not_less (a b : Fraction) :
  in_range a -> in_range b ->
  cross_products_fit a b ->
  operator_ge a b = fmap negb (operator_lt a b).
Proof.
  intros Ha Hb Hfit.
  destruct (in_range_dec_zero a Ha) as [->|Za]; [reflexivity|].
  destruct (in_range_dec_zero b Hb) as [->|Zb].
  { unfold operator_ge, operator_gt, operator_lt, fmap.
    rewrite (normalize_reduced a Ha Za). reflexivity. }
  unfold operator_ge, fmap.
  rewrite (operator_gt_reduced a b Ha Hb Za Zb).
  rewrite (operator_lt_reduced a b Ha Hb Za Zb).
  rewrite (operator_eq_reduced a b Ha Hb Za Zb).
  destruct (umul_cross_fit a b Ha Hb Za Zb Hfit) as [-> ->].
  cbn [bind].
  pose proof (fields_eqb_iff (reduced a) (reduced b)) as E.
  pose proof (cross_products_eq a b Ha Hb Za Zb) as C.
  pose proof (cross_products_scale a b Ha Hb Za Zb) as S.
  pose proof (reduced_gcd_pos a Za) as Ga.
  pose proof (reduced_gcd_pos b Zb) as Gb.
  rewrite Z.gtb_ltb.
  destruct (Z.ltb_spec (m_num (reduced b) * m_denom (reduced a))
                       (m_num (reduced a) * m_denom (reduced b))) as [L|L];
  destruct (Z.ltb_spec (m_num (reduced a) * m_denom (reduced b))
                       (m_num (reduced b) * m_denom (reduced a))) as [L'|L'];
    cbn [negb]; try reflexivity; try (exfalso; lia).
  - f_equal. apply not_true_is_false. intros T. apply E in T.
    rewrite T in L'. lia.
  - f_equal. apply E, C.
    assert (P : m_num (reduced a) * m_denom (reduced b) =
                m_num (reduced b) * m_denom (reduced a)) by lia.
    rewrite P, Z.sub_diag, Z.mul_0_r in S. lia.
Qed.

Lemma greater_or_equal_is_not_less_witness :
  operator_ge (mkFraction 1 3) (mkFraction 1 4) =
    fmap negb (operator_lt (mkFraction 1 3) (mkFraction 1 4)).
Proof.
  apply (greater_or_equal_is_not_less (mkFraction 1 3) (mkFraction 1 4)).
  - by_evaluation.
  - by_evaluation.
  - by_evaluation.
Defined.

(** ** Reachability of the division by zero *)

Section DivisionByZero.

Lemma normalize_returned_iff (f : Fraction) :
  in_range f -> (returned (normalize f) = true <-> not_both_zero f).
Proof.
  intros Hr. split.
  - intros R. destruct (in_range_dec_zero f Hr) as [->|Hz]; [discriminate R | exact Hz].
  - intros Hz. rewrite normalize_reduced by assumption. reflexivity.
Qed.

Lemma short_circuit_returned (c : bool) (m : outcome bool) :
  returned m = true -> returned (if c then Returns true else m) = true.
Proof. destruct c; [reflexivity | trivial]. Qed.

End DivisionByZero.

(** C10, as stated, fails for the product of two Fractions: each operand
    65536/65536 has fields that are not both zero, but both products wrap
    around to 0, the pair handed to the reduction is 0/0, and the division
    by zero is reached. *)
Lemma product_reaches_division_by_zero :
  not_both_zero (mkFraction 65536 65536) /\
  m_denom (mkFraction 65536 65536) <> 0 /\
  operator_mul_Fraction (mkFraction 65536 65536) (mkFraction 65536 65536)
    = Undefined.
Proof.
  split; [left|]; by_evaluation.
Qed.

(** C10 (amended): the reduction divides both fields by the gcd, and the
    divisor is nonzero whenever the pair it is applied to is not 0/0.  The
    pair 0/0 is constructible, and with it as an operand the division by zero
    is reached from the comparison and the multiplication operators.  With
    operands that are not 0/0 every comparison operator completes; a
    multiplication operator reaches the division by zero exactly when the
    wrapped-around pair it hands to the reduction is 0/0. *)
Theorem division_by_zero_exactly_on_zero_pair (a b : Fraction) (coeff : Z) :
  in_range a -> in_range b -> not_both_zero a -> not_both_zero b ->
  (uint_of_int (int_of_uint (std_gcd (m_num a) (m_denom a))) <> 0 /\
   returned (normalize a) = true) /\
  (Fraction_ctor 0 0 = Returns (mkFraction 0 0) /\
   normalize (mkFraction 0 0) = Undefined /\
   operator_eq (mkFraction 0 0) b = Undefined /\
   operator_eq a (mkFraction 0 0) = Undefined /\
   operator_lt (mkFraction 0 0) b = Undefined /\
   operator_lt a (mkFraction 0 0) = Undefined /\
   operator_mul (mkFraction 0 0) coeff = Undefined /\
   operator_mul_uint_Fraction coeff (mkFraction 0 0) = Undefined /\
   operator_mul_Fraction (mkFraction 0 0) b = Undefined) /\
  (returned (operator_eq a b) = true /\
   returned (operator_ne a b) = true /\
   returned (operator_lt a b) = true /\
   returned (operator_le a b) = true /\
   returned (operator_gt a b) = true /\
   returned (operator_ge a b) = true) /\
  ((operator_mul a coeff = Undefined <->
      umul (m_num a) coeff = 0 /\ m_denom a = 0) /\
   (operator_mul_uint_Fraction coeff a = Undefined <->
      umul (m_num a) coeff = 0 /\ m_denom a = 0) /\
   (operator_mul_assign a coeff = Undefined <->
      umul (m_num a) coeff = 0 /\ m_denom a = 0) /\
   (operator_mul_Fraction a b = Undefined <->
      umul (m_num a) (m_num b) = 0 /\ umul (m_denom a) (m_denom b) = 0) /\
   (operator_mul_assign_Fraction a b = Undefined <->
      umul (m_num a) (m_num b) = 0 /\ umul (m_denom a) (m_denom b) = 0)).
Proof.
  intros Ha Hb Za Zb.
  split; [|split; [|split]].
  - split.
    + destruct Ha as [Hn Hd]. rewrite (normalize_divisor _ _ Hn Hd).
      pose proof (reduced_gcd_pos a Za). lia.
    + apply normalize_returned_iff; assumption.
  - unfold operator_eq, operator_lt.
    rewrite (normalize_reduced a Ha Za).
    rewrite operator_mul_Fraction_normalize.
    unfold product, umul; simpl m_num; simpl m_denom.
    repeat split; reflexivity.
  - unfold operator_ne, operator_le, operator_ge.
    rewrite (operator_eq_reduced a b Ha Hb Za Zb).
    rewrite (operator_lt_reduced a b Ha Hb Za Zb).
    rewrite (operator_gt_reduced a b Ha Hb Za Zb).
    cbn [bind]. repeat split; apply short_circuit_returned; reflexivity.
  - rewrite operator_mul_normalize, operator_mul_uint_Fraction_normalize by exact Ha.
    rewrite operator_mul_assign_normalize, operator_mul_Fraction_normalize,
      operator_mul_assign_Fraction_normalize.
    pose proof (normalize_undefined_iff (scaled a coeff) (scaled_in_range a coeff Ha)) as S.
    pose proof (normalize_undefined_iff (product a b) (product_in_range a b)) as P.
    simpl in S, P. tauto.
Qed.

Lemma division_by_zero_exactly_on_zero_pair_witness :
  returned (operator_eq (mkFraction 2 6) (mkFraction 1 0)) = true /\
  operator_eq (mkFraction 0 0) (mkFraction 1 0) = Undefined /\
  (operator_mul_Fraction (mkFraction 2 6) (mkFraction 1 0) = Undefined <->
   umul 2 1 = 0 /\ umul 6 0 = 0).
Proof.
  destruct (division_by_zero_exactly_on_zero_pair
              (mkFraction 2 6) (mkFraction 1 0) 3)
    as (_ & (_ & _ & Z & _) & (E & _) & (_ & _ & _ & M & _)).
  - by_evaluation.
  - by_evaluation.
  - left. by_evaluation.
  - left. by_evaluation.
  - split; [exact E | split; [exact Z | exact M]].
Defined.

(** ** The textual rendering *)

Section Rendering.

Lemma string_app_assoc (s t u : string) :
  ((s ++ t) ++ u)%string = (s ++ t ++ u)%string.
Proof.
  induction s as [|c s IH]; simpl; [reflexivity | rewrite IH; reflexivity].
Qed.

Lemma string_of_uint_digits (d : Decimal.uint) :
  string_forall is_digit (NilEmpty.string_of_uint d) = true.
Proof.
  induction d; simpl; try reflexivity; exact IHd.
Qed.

Lemma put_uint_digits (x : Z) : string_forall is_digit (put_uint x) = true.
Proof.
  unfold put_uint, NilZero.string_of_uint.
  destruct (N.to_uint (Z.to_N x)) eqn:E; try reflexivity;
    rewrite <- E; apply string_of_uint_digits.
Qed.

Lemma nzhead_no_leading_zero (d : Decimal.uint) :
  Decimal.nzhead d = Decimal.Nil \/
  no_leading_zero (NilEmpty.string_of_uint (Decimal.nzhead d)) = true.
Proof.
  induction d; simpl; try (left; reflexivity); try exact IHd;
    right; destruct (NilEmpty.string_of_uint d); reflexivity.
Qed.

Lemma to_uint_normal (n : N) : N.to_uint n = Decimal.unorm (N.to_uint n).
Proof.
  rewrite <- (Unsigned.of_to n) at 1. apply Unsigned.to_of.
Qed.

Lemma put_uint_no_leading_zero (x : Z) : no_leading_zero (put_uint x) = true.
Proof.
  unfold put_uint. rewrite to_uint_normal. unfold Decimal.unorm.
  destruct (nzhead_no_leading_zero (N.to_uint (Z.to_N x))) as [E|E].
  - rewrite E. reflexivity.
  - destruct (Decimal.nzhead (N.to_uint (Z.to_N x))); try exact E.
    discriminate E.
Qed.

Lemma to_uint_nonnil (n : N) : N.to_uint n <> Decimal.Nil.
Proof.
  destruct n; simpl; [discriminate | apply DecimalPos.Unsigned.to_uint_nonnil].
Qed.

(** The numeral that was written denotes the field it was written from. *)
Lemma read_put_uint (x : Z) : 0 <= x -> read_uint (put_uint x) = Some x.
Proof.
  intros Hx. unfold read_uint, put_uint.
  rewrite NilZero.usu by apply to_uint_nonnil. simpl.
  rewrite Unsigned.of_to, Z2N.id by exact Hx. reflexivity.
Qed.

End Rendering.

(** C3, as stated, fails for a value that was only constructed: the stream
    operator writes the stored pair and the constructor does not reduce, so
    the value constructed as 2/6 renders as 2/6 and not as 1/3. *)
Lemma render_of_unreduced_pair :
  fmap render (Fraction_ctor 2 6) = Returns "2/6"%string /\
  fmap render (Fraction_ctor 2 6) <> Returns "1/3"%string.
Proof. by_evaluation. Qed.

(** C3 (amended): for every Fraction the rendering is the string
    "<m_num>/<m_denom>" of the stored pair, each field a decimal numeral of
    digits only (no sign, no whitespace) without padding, which reads back
    as the field.  The stored pair is the reduced form once the value went
    through the reduction: a value constructed as 2/6 renders as "2/6", and
    as "1/3" after the reduction. *)
Theorem render_writes_stored_pair (f : Fraction) :
  in_range f ->
  render f = (put_uint (m_num f) ++ "/" ++ put_uint (m_denom f))%string /\
  (string_forall is_digit (put_uint (m_num f)) = true /\
   no_leading_zero (put_uint (m_num f)) = true /\
   read_uint (put_uint (m_num f)) = Some (m_num f)) /\
  (string_forall is_digit (put_uint (m_denom f)) = true /\
   no_leading_zero (put_uint (m_denom f)) = true /\
   read_uint (put_uint (m_denom f)) = Some (m_denom f)) /\
  (forall r, normalize f = Returns r ->
     render r = (put_uint (m_num (reduced f)) ++ "/" ++
                 put_uint (m_denom (reduced f)))%string) /\
  fmap render (Fraction_ctor 2 6) = Returns "2/6"%string /\
  fmap render (x <- Fraction_ctor 2 6 ;; normalize x) = Returns "1/3"%string.
Proof.
  intros Hf. pose proof Hf as [[Hn _] [Hd _]].
  repeat split;
    try apply put_uint_digits; try apply put_uint_no_leading_zero;
    try (apply read_put_uint; assumption).
  - unfold render, operator_shl. simpl.
    apply string_app_assoc.
  - intros r Hr.
    destruct (Z.eq_dec (m_num f) 0) as [En|En];
      [destruct (Z.eq_dec (m_denom f) 0) as [Ed|Ed]|].
    + destruct f as [n d]; simpl in En, Ed; subst. discriminate Hr.
    + rewrite normalize_reduced in Hr;
        [| exact Hf | right; exact Ed].
      inversion Hr; subst r. unfold render, operator_shl. simpl.
      apply string_app_assoc.
    + rewrite normalize_reduced in Hr;
        [| exact Hf | left; exact En].
      inversion Hr; subst r. unfold render, operator_shl. simpl.
      apply string_app_assoc.
Qed.

Lemma render_writes_stored_pair_witness :
  render (mkFraction 10 4) = "10/4"%string /\
  read_uint (put_uint 10) = Some 10 /\
  (forall r, normalize (mkFraction 10 4) = Returns r -> render r = "5/2"%string).
Proof.
  destruct (render_writes_stored_pair (mkFraction 10 4))
    as (P & (_ & _ & R) & _ & N & _).
  - by_evaluation.
  - split; [exact P | split; [exact R | exact N]].
Defined.

(** * Further properties of the class *)

(** ** What [normalize] returns *)

Section NormalizeOutcome.

(** [normalize] either divides by zero or returns; it has no third way out. *)
Lemma normalize_cases (f : Fraction) :
  normalize f = Undefined \/ exists r, normalize f = Returns r.
Proof.
  unfold normalize, udiv.
  destruct (_ =? 0); simpl; [left; reflexivity | right; eexists; reflexivity].
Qed.

Lemma normalize_Returns_inv (f r : Fraction) :
  in_range f -> normalize f = Returns r ->
  not_both_zero f /\ r = reduced f.
Proof.
  intros Hf Hr. destruct (in_range_dec_zero f Hf) as [->|Hz].
  - discriminate Hr.
  - rewrite (normalize_reduced f Hf Hz) in Hr. inversion Hr. auto.
Qed.

Lemma reduced_le (f : Fraction) :
  in_range f -> not_both_zero f ->
  m_num (reduced f) <= m_num f /\ m_denom (reduced f) <= m_denom f.
Proof.
  intros Hf Hz.
  pose proof (reduced_gcd_pos f Hz) as G.
  pose proof (reduced_num_eq f Hz) as En.
  pose proof (reduced_denom_eq f Hz) as Ed.
  pose proof (reduced_in_range f Hf Hz) as [[Rn _] [Rd _]].
  split; nia.
Qed.

Lemma reduced_same_value (f : Fraction) :
  not_both_zero f ->
  m_num (reduced f) * m_denom f = m_num f * m_denom (reduced f).
Proof.
  intros Hz.
  pose proof (reduced_num_eq f Hz) as En.
  pose proof (reduced_denom_eq f Hz) as Ed.
  remember (Z.gcd (m_num f) (m_denom f)) as g.
  remember (reduced f) as r.
  rewrite En, Ed. ring.
Qed.

End NormalizeOutcome.

(** X1: whenever [normalize] returns, the new pair denotes the same rational
    as the old one (equal cross products), is in lowest terms, still holds
    unsigned values, and neither field has grown. *)
Theorem normalize_keeps_value (f r : Fraction) :
  in_range f ->
  normalize f = Returns r ->
  m_num r * m_denom f = m_num f * m_denom r /\
  is_reduced r /\
  in_range r /\
  m_num r <= m_num f /\ m_denom r <= m_denom f.
Proof.
  intros Hf Hr.
  destruct (normalize_Returns_inv f r Hf Hr) as [Hz ->].
  pose proof (reduced_le f Hf Hz) as [Ln Ld].
  repeat split; try assumption; try apply (reduced_in_range f Hf Hz).
  - apply reduced_same_value, Hz.
  - apply reduced_is_reduced, Hz.
Qed.

Lemma normalize_keeps_value_witness :
  m_num (mkFraction 3 5) * m_denom (mkFraction 12 20) =
  m_num (mkFraction 12 20) * m_denom (mkFraction 3 5).
Proof.
  destruct (normalize_keeps_value (mkFraction 12 20) (mkFraction 3 5))
    as [V _].
  - by_evaluation.
  - reflexivity.
  - exact V.
Defined.

(** X2: [normalize] leaves a pair of unsigned fields unchanged exactly when
    the pair is in lowest terms; in particular a second call after a first
    one changes nothing. *)
Theorem normalize_fixed_point (f : Fraction) :
  in_range f ->
  (normalize f = Returns f <-> is_reduced f) /\
  (forall r, normalize f = Returns r -> normalize r = Returns r).
Proof.
  intros Hf. split; [split|].
  - intros Hr. destruct (normalize_Returns_inv f f Hf Hr) as [Hz E].
    rewrite E. apply reduced_is_reduced, Hz.
  - intros G.
    assert (Hz : not_both_zero f).
    { unfold is_reduced in G. unfold not_both_zero.
      destruct (Z.eq_dec (m_num f) 0) as [E|E]; [right | left; exact E].
      intros E'. rewrite E, E' in G. discriminate G. }
    rewrite (normalize_reduced f Hf Hz), (reduced_of_is_reduced f G).
    reflexivity.
  - intros r Hr. destruct (normalize_Returns_inv f r Hf Hr) as [Hz ->].
    rewrite normalize_reduced.
    + rewrite reduced_of_is_reduced; [reflexivity | apply reduced_is_reduced, Hz].
    + apply reduced_in_range; assumption.
    + apply reduced_not_both_zero; assumption.
Qed.

Lemma normalize_fixed_point_witness :
  normalize (mkFraction 3 5) = Returns (mkFraction 3 5) <->
  is_reduced (mkFraction 3 5).
Proof.
  destruct (normalize_fixed_point (mkFraction 3 5)) as [I _].
  - by_evaluation.
  - exact I.
Defined.

(** ** Equality *)

Section Equality.

Lemma operator_eq_true_iff (a b : Fraction) :
  in_range a -> in_range b -> not_both_zero a -> not_both_zero b ->
  (operator_eq a b = Returns true <->
   m_num a * m_denom b = m_num b * m_denom a).
Proof.
  intros Ha Hb Za Zb.
  rewrite (operator_eq_reduced a b Ha Hb Za Zb).
  rewrite (cross_products_eq a b Ha Hb Za Zb).
  rewrite <- fields_eqb_iff.
  split; [intros E; inversion E; reflexivity | intros ->; reflexivity].
Qed.

Lemma operator_eq_false_iff (a b : Fraction) :
  in_range a -> in_range b -> not_both_zero a -> not_both_zero b ->
  (operator_eq a b = Returns false <->
   m_num a * m_denom b <> m_num b * m_denom a).
Proof.
  intros Ha Hb Za Zb.
  rewrite <- (operator_eq_true_iff a b Ha Hb Za Zb).
  rewrite (operator_eq_reduced a b Ha Hb Za Zb).
  destruct ((m_num (reduced a) =? m_num (reduced b)) &&
            (m_denom (reduced a) =? m_denom (reduced b)))%bool;
    split; intros H; try reflexivity; try discriminate H.
  - exfalso. apply H. reflexivity.
  - discriminate.
Qed.

(** An operand of a completed comparison is not 0/0. *)
Lemma operator_eq_Returns_inv (a b : Fraction) (v : bool) :
  in_range a -> in_range b -> operator_eq a b = Returns v ->
  not_both_zero a /\ not_both_zero b.
Proof.
  intros Ha Hb E. unfold operator_eq in E.
  destruct (in_range_dec_zero a Ha) as [->|Za]; [discriminate E|].
  rewrite (normalize_reduced a Ha Za) in E. cbn [bind] in E.
  destruct (in_range_dec_zero b Hb) as [->|Zb]; [discriminate E|].
  split; assumption.
Qed.

(** Swapping the operands of [==] does not change the outcome, whatever the
    operands are. *)
Lemma operator_eq_sym (a b : Fraction) : operator_eq a b = operator_eq b a.
Proof.
  unfold operator_eq.
  destruct (normalize_cases a) as [Ea|[ra Ea]];
    destruct (normalize_cases b) as [Eb|[rb Eb]];
    rewrite Ea, Eb; cbn [bind]; try reflexivity.
  rewrite (Z.eqb_sym (m_num ra)), (Z.eqb_sym (m_denom ra)). reflexivity.
Qed.

End Equality.

(** X3: [a == b] is true exactly when the two operands denote the same
    rational, a.num * b.denom = b.num * a.denom over the integers, and false
    exactly when they do not; because the operands are reduced before the
    fields are compared, no wrap-around can change the answer. *)
Theorem equality_decides_same_rational (a b : Fraction) :
  in_range a -> in_range b -> not_both_zero a -> not_both_zero b ->
  (operator_eq a b = Returns true <->
   m_num a * m_denom b = m_num b * m_denom a) /\
  (operator_eq a b = Returns false <->
   m_num a * m_denom b <> m_num b * m_denom a).
Proof.
  intros Ha Hb Za Zb. split.
  - apply operator_eq_true_iff; assumption.
  - apply operator_eq_false_iff; assumption.
Qed.

Lemma equality_decides_same_rational_witness :
  operator_eq (mkFraction 4294967295 4294967295) (mkFraction 7 7)
    = Returns true.
Proof.
  destruct (equality_decides_same_rational
              (mkFraction 4294967295 4294967295) (mkFraction 7 7))
    as [[_ E] _].
  - by_evaluation.
  - by_evaluation.
  - left. by_evaluation.
  - left. by_evaluation.
  - apply E. reflexivity.
Defined.

(** X4: on Fractions with unsigned fields [==] is an equivalence: a value that
    is not 0/0 equals itself, swapping the operands never changes the
    outcome, and a == b with b == c gives a == c. *)
Theorem equality_is_equivalence (a b c : Fraction) :
  in_range a -> in_range b -> in_range c ->
  (not_both_zero a -> operator_eq a a = Returns true) /\
  operator_eq a b = operator_eq b a /\
  (operator_eq a b = Returns true -> operator_eq b c = Returns true ->
   operator_eq a c = Returns true).
Proof.
  intros Ha Hb Hc. split; [|split].
  - intros Za. apply operator_eq_true_iff; auto.
  - apply operator_eq_sym.
  - intros Eab Ebc.
    destruct (operator_eq_Returns_inv a b _ Ha Hb Eab) as [Za Zb].
    destruct (operator_eq_Returns_inv b c _ Hb Hc Ebc) as [_ Zc].
    rewrite (operator_eq_reduced a b Ha Hb Za Zb) in Eab.
    rewrite (operator_eq_reduced b c Hb Hc Zb Zc) in Ebc.
    rewrite (operator_eq_reduced a c Ha Hc Za Zc).
    assert (Rab : reduced a = reduced b) by (apply fields_eqb_iff; congruence).
    assert (Rbc : reduced b = reduced c) by (apply fields_eqb_iff; congruence).
    rewrite Rab, Rbc, !Z.eqb_refl. reflexivity.
Qed.

Lemma equality_is_equivalence_witness :
  operator_eq (mkFraction 1 3) (mkFraction 5 15) = Returns true.
Proof.
  destruct (equality_is_equivalence
              (mkFraction 1 3) (mkFraction 2 6) (mkFraction 5 15))
    as (_ & _ & T).
  - by_evaluation.
  - by_evaluation.
  - by_evaluation.
  - apply T; reflexivity.
Defined.

(** X5: [a != b] is true exactly when the operands denote different
    rationals and false exactly when they denote the same one; it divides by
    zero on the same operands as [==]. *)
Theorem inequality_decides_different_rational (a b : Fraction) :
  in_range a -> in_range b ->
  (not_both_zero a -> not_both_zero b ->
   (operator_ne a b = Returns true <->
    m_num a * m_denom b <> m_num b * m_denom a) /\
   (operator_ne a b = Returns false <->
    m_num a * m_denom b = m_num b * m_denom a)) /\
  (operator_ne a b = Undefined <-> operator_eq a b = Undefined).
Proof.
  intros Ha Hb. split.
  - intros Za Zb.
    rewrite <- (operator_eq_true_iff a b Ha Hb Za Zb).
    unfold operator_ne. rewrite (operator_eq_reduced a b Ha Hb Za Zb).
    cbn [bind].
    destruct ((m_num (reduced a) =? m_num (reduced b)) &&
              (m_denom (reduced a) =? m_denom (reduced b)))%bool;
      cbn [negb]; repeat split; intros H; try reflexivity;
      try discriminate H; try discriminate.
    exfalso. apply H. reflexivity.
  - unfold operator_ne.
    destruct (operator_eq a b); cbn [bind]; split; intros H;
      try reflexivity; discriminate H.
Qed.

Lemma inequality_decides_different_rational_witness :
  operator_ne (mkFraction 1 3) (mkFraction 3 6) = Returns true.
Proof.
  destruct (inequality_decides_different_rational
              (mkFraction 1 3) (mkFraction 3 6)) as [D _].
  - by_evaluation.
  - by_evaluation.
  - destruct D as [[_ N] _].
    + left. by_evaluation.
    + left. by_evaluation.
    + apply N. by_evaluation.
Defined.

(** ** Ordering *)

Section Ordering.

(** Without wrap-around [<] compares the integer cross products of the
    operands as they are stored. *)
Lemma operator_lt_fit (a b : Fraction) :
  in_range a -> in_range b -> not_both_zero a -> not_both_zero b ->
  cross_products_fit a b ->
  operator_lt a b = Returns (m_num a * m_denom b <? m_num b * m_denom a).
Proof.
  intros Ha Hb Za Zb Hfit.
  rewrite (operator_lt_reduced a b Ha Hb Za Zb).
  destruct (umul_cross_fit a b Ha Hb Za Zb Hfit) as [-> ->].
  pose proof (cross_products_lt a b Ha Hb Za Zb) as L.
  f_equal.
  destruct (Z.ltb_spec (m_num (reduced a) * m_denom (reduced b))
                       (m_num (reduced b) * m_denom (reduced a)));
    destruct (Z.ltb_spec (m_num a * m_denom b) (m_num b * m_denom a));
    try reflexivity; exfalso; apply L in H || apply L in H0; lia.
Qed.

Lemma operator_gt_is_lt_swapped (a b : Fraction) :
  operator_gt a b = operator_lt b a.
Proof.
  unfold operator_gt, operator_lt.
  destruct (normalize_cases a) as [Ea|[ra Ea]];
    destruct (normalize_cases b) as [Eb|[rb Eb]];
    rewrite Ea, Eb; cbn [bind]; try reflexivity.
  rewrite Z.gtb_ltb. reflexivity.
Qed.

Lemma cross_products_fit_sym (a b : Fraction) :
  cross_products_fit a b -> cross_products_fit b a.
Proof. unfold cross_products_fit. tauto. Qed.

Lemma operator_lt_Returns_inv (a b : Fraction) (v : bool) :
  in_range a -> in_range b -> operator_lt a b = Returns v ->
  not_both_zero a /\ not_both_zero b.
Proof.
  intros Ha Hb E. unfold operator_lt in E.
  destruct (in_range_dec_zero a Ha) as [->|Za]; [discriminate E|].
  rewrite (normalize_reduced a Ha Za) in E. cbn [bind] in E.
  destruct (in_range_dec_zero b Hb) as [->|Zb]; [discriminate E|].
  split; assumption.
Qed.

End Ordering.

(** X6: [a > b] evaluates to the same outcome as [b < a] for all operands,
    including those whose cross products wrap around and those on which the
    reduction divides by zero. *)
Theorem greater_is_less_swapped (a b : Fraction) :
  operator_gt a b = operator_lt b a.
Proof. apply operator_gt_is_lt_swapped. Qed.

(** X7: [a <= b] evaluates to the same outcome as [b >= a] for all
    operands. *)
Theorem less_or_equal_is_greater_or_equal_swapped (a b : Fraction) :
  operator_le a b = operator_ge b a.
Proof.
  unfold operator_le, operator_ge.
  rewrite operator_gt_is_lt_swapped, (operator_eq_sym b a). reflexivity.
Qed.

(** X8: comparing a Fraction that is not 0/0 with itself gives true for [==],
    [<=], [>=] and false for [!=], [<], [>], whatever the size of its
    fields. *)
Theorem comparison_with_itself (a : Fraction) :
  in_range a -> not_both_zero a ->
  operator_eq a a = Returns true /\
  operator_ne a a = Returns false /\
  operator_lt a a = Returns false /\
  operator_le a a = Returns true /\
  operator_gt a a = Returns false /\
  operator_ge a a = Returns true.
Proof.
  intros Ha Za.
  assert (E : operator_eq a a = Returns true)
    by (apply operator_eq_true_iff; auto).
  assert (L : operator_lt a a = Returns false).
  { rewrite (operator_lt_reduced a a Ha Ha Za Za), Z.ltb_irrefl. reflexivity. }
  unfold operator_ne, operator_le, operator_ge.
  rewrite operator_gt_is_lt_swapped, E, L. repeat split.
Qed.

Lemma comparison_with_itself_witness :
  operator_le (mkFraction 4294967295 4294967294)
              (mkFraction 4294967295 4294967294) = Returns true.
Proof.
  destruct (comparison_with_itself (mkFraction 4294967295 4294967294))
    as (_ & _ & _ & L & _).
  - by_evaluation.
  - left. by_evaluation.
  - exact L.
Defined.

(** X9: when the two cross products of the reduced forms fit in an unsigned
    int, [a <= b] and [a > b] compare the integer cross products of the
    operands as stored: [a <= b] is a.num * b.denom <= b.num * a.denom and
    [a > b] is b.num * a.denom < a.num * b.denom. *)
Theorem less_or_equal_and_greater_are_cross_multiplication (a b : Fraction) :
  in_range a -> in_range b -> not_both_zero a -> not_both_zero b ->
  cross_products_fit a b ->
  operator_le a b = Returns (m_num a * m_denom b <=? m_num b * m_denom a) /\
  operator_gt a b = Returns (m_num b * m_denom a <? m_num a * m_denom b).
Proof.
  intros Ha Hb Za Zb Hfit. split.
  - unfold operator_le.
    rewrite (operator_lt_fit a b Ha Hb Za Zb Hfit). cbn [bind].
    destruct (Z.ltb_spec (m_num a * m_denom b) (m_num b * m_denom a)) as [L|L].
    + f_equal. symmetry. apply Z.leb_le. lia.
    + destruct (Z.leb_spec (m_num a * m_denom b) (m_num b * m_denom a)) as [L'|L'].
      * apply operator_eq_true_iff; try assumption. lia.
      * apply operator_eq_false_iff; try assumption. lia.
  - rewrite operator_gt_is_lt_swapped.
    apply operator_lt_fit; try assumption.
    apply cross_products_fit_sym, Hfit.
Qed.

Lemma less_or_equal_and_greater_are_cross_multiplication_witness :
  operator_le (mkFraction 2 6) (mkFraction 1 3) = Returns true /\
  operator_gt (mkFraction 2 6) (mkFraction 1 3) = Returns false.
Proof.
  apply (less_or_equal_and_greater_are_cross_multiplication
           (mkFraction 2 6) (mkFraction 1 3)).
  - by_evaluation.
  - by_evaluation.
  - left. by_evaluation.
  - left. by_evaluation.
  - by_evaluation.
Defined.

(** X10: [<] is transitive as long as no cross product wraps around: with
    the cross products of (a, b), (b, c) and (a, c) fitting in an unsigned
    int, a < b and b < c give a < c. *)
Theorem less_than_transitive (a b c : Fraction) :
  in_range a -> in_range b -> in_range c ->
  cross_products_fit a b -> cross_products_fit b c -> cross_products_fit a c ->
  operator_lt a b = Returns true ->
  operator_lt b c = Returns true ->
  operator_lt a c = Returns true.
Proof.
  intros Ha Hb Hc Fab Fbc Fac Lab Lbc.
  destruct (operator_lt_Returns_inv a b _ Ha Hb Lab) as [Za Zb].
  destruct (operator_lt_Returns_inv b c _ Hb Hc Lbc) as [_ Zc].
  rewrite (operator_lt_fit a b Ha Hb Za Zb Fab) in Lab.
  rewrite (operator_lt_fit b c Hb Hc Zb Zc Fbc) in Lbc.
  rewrite (operator_lt_fit a c Ha Hc Za Zc Fac).
  f_equal. apply Z.ltb_lt.
  assert (Lab' : m_num a * m_denom b < m_num b * m_denom a)
    by (apply Z.ltb_lt; congruence).
  assert (Lbc' : m_num b * m_denom c < m_num c * m_denom b)
    by (apply Z.ltb_lt; congruence).
  destruct Ha as [[? _] [? _]], Hb as [[? _] [? _]], Hc as [[? _] [? _]].
  assert (0 < m_denom a) by nia.
  assert (0 < m_denom b) by nia.
  assert (0 < m_num c) by nia.
  destruct (Z.eq_dec (m_denom c) 0) as [E|E]; [rewrite E; nia|].
  apply Z.mul_lt_mono_pos_r with (p := m_denom b); [assumption|].
  apply Z.le_lt_trans with (m := m_num b * m_denom a * m_denom c).
  - assert (X : m_num a * m_denom b * m_denom c <= m_num b * m_denom a * m_denom c)
      by (apply Z.mul_le_mono_nonneg_r; lia).
    lia.
  - assert (X : m_num b * m_denom c * m_denom a < m_num c * m_denom b * m_denom a)
      by (apply Z.mul_lt_mono_pos_r; lia).
    lia.
Qed.

Lemma less_than_transitive_witness :
  operator_lt (mkFraction 1 4) (mkFraction 2 4) = Returns true.
Proof.
  apply (less_than_transitive (mkFraction 1 4) (mkFraction 1 3) (mkFraction 2 4));
    by_evaluation.
Defined.

(** X11: [<] never holds in both directions: if [a < b] is true then [b < a]
    is false, for all operands, also when the cross products wrap around. *)
Theorem less_than_asymmetric (a b : Fraction) :
  operator_lt a b = Returns true -> operator_lt b a = Returns false.
Proof.
  unfold operator_lt.
  destruct (normalize_cases a) as [Ea|[ra Ea]];
    destruct (normalize_cases b) as [Eb|[rb Eb]];
    rewrite Ea, Eb; cbn [bind]; try discriminate.
  intros L. f_equal. apply Z.ltb_ge.
  assert (L' : umul (m_num ra) (m_denom rb) < umul (m_num rb) (m_denom ra))
    by (apply Z.ltb_lt; congruence).
  lia.
Qed.

Lemma less_than_asymmetric_witness :
  operator_lt (mkFraction 1 65536) (mkFraction 65536 1) = Returns false.
Proof.
  apply (less_than_asymmetric (mkFraction 65536 1) (mkFraction 1 65536)).
  reflexivity.
Defined.

(** ** Multiplication *)

Section Products.

Lemma umul_comm (x y : Z) : umul x y = umul y x.
Proof. unfold umul. rewrite Z.mul_comm. reflexivity. Qed.

Lemma umul_1_r (x : Z) : is_uint x -> umul x 1 = x.
Proof.
  intros Hx. unfold umul. rewrite Z.mul_1_r. apply Z.mod_small, Hx.
Qed.

Lemma umul_0_r (x : Z) : umul x 0 = 0.
Proof. unfold umul. rewrite Z.mul_0_r. reflexivity. Qed.

(** Without wrap-around the product operator reduces the integer products. *)
Lemma operator_mul_Fraction_fit (a b : Fraction) :
  in_range a -> in_range b ->
  m_num a * m_num b < uint_modulus ->
  m_denom a * m_denom b < uint_modulus ->
  m_num a * m_num b <> 0 \/ m_denom a * m_denom b <> 0 ->
  operator_mul_Fraction a b =
    Returns (reduced (mkFraction (m_num a * m_num b) (m_denom a * m_denom b))).
Proof.
  intros [[Han _] [Had _]] [[Hbn _] [Hbd _]] Fn Fd Hz.
  rewrite operator_mul_Fraction_normalize. unfold product.
  rewrite !umul_small by assumption.
  apply normalize_reduced; [|exact Hz].
  unfold in_range, is_uint; simpl. nia.
Qed.

Lemma in_range_mk (n d : Z) :
  0 <= n -> 0 <= d -> n < uint_modulus -> d < uint_modulus ->
  in_range (mkFraction n d).
Proof. unfold in_range, is_uint; simpl. lia. Qed.

(** Pairs that denote the same rational have the same reduced form. *)
Lemma reduced_congruence (x y : Fraction) :
  in_range x -> in_range y -> not_both_zero x -> not_both_zero y ->
  m_num x * m_denom y = m_num y * m_denom x ->
  reduced x = reduced y.
Proof.
  intros Hx Hy Zx Zy. apply cross_products_eq; assumption.
Qed.

End Products.

(** X12: the product of two Fractions does not depend on the order of the
    operands: [a * b] and [b * a] evaluate to the same outcome for all
    operands. *)
Theorem product_commutative (a b : Fraction) :
  operator_mul_Fraction a b = operator_mul_Fraction b a.
Proof.
  rewrite !operator_mul_Fraction_normalize. unfold product.
  rewrite (umul_comm (m_num a)), (umul_comm (m_denom a)). reflexivity.
Qed.

(** X13: each non-assigning operator gives what the matching compound
    assignment leaves in the object: [a * k] and [k * a] agree with [a *= k]
    (the second call of normalize changes nothing), and [a * b] agrees with
    [a *= b]. *)
Theorem product_agrees_with_compound_assignment (a b : Fraction) (k : Z) :
  in_range a ->
  operator_mul a k = operator_mul_assign a k /\
  operator_mul_uint_Fraction k a = operator_mul_assign a k /\
  operator_mul_Fraction a b = operator_mul_assign_Fraction a b.
Proof.
  intros Ha.
  rewrite operator_mul_normalize, operator_mul_uint_Fraction_normalize by exact Ha.
  rewrite operator_mul_Fraction_normalize.
  repeat split.
Qed.

Lemma product_agrees_with_compound_assignment_witness :
  operator_mul (mkFraction 1 3) 3 = operator_mul_assign (mkFraction 1 3) 3.
Proof.
  destruct (product_agrees_with_compound_assignment
              (mkFraction 1 3) (mkFraction 1 1) 3) as [E _].
  - by_evaluation.
  - exact E.
Defined.

(** X14: scaling by an unsigned k gives the same outcome as multiplying by
    the Fraction that the converting constructor builds from k. *)
Theorem scaling_is_product_with_converted_coefficient (a : Fraction) (k : Z) :
  in_range a ->
  operator_mul a k = (r <- Fraction_ctor1 k ;; operator_mul_Fraction a r) /\
  operator_mul_uint_Fraction k a =
    (r <- Fraction_ctor1 k ;; operator_mul_Fraction a r).
Proof.
  intros Ha.
  rewrite operator_mul_normalize, operator_mul_uint_Fraction_normalize by exact Ha.
  unfold Fraction_ctor1. cbn [bind].
  rewrite operator_mul_Fraction_normalize. unfold product, scaled.
  cbn [m_num m_denom]. rewrite (umul_1_r (m_denom a)) by apply Ha.
  split; reflexivity.
Qed.

Lemma scaling_is_product_with_converted_coefficient_witness :
  operator_mul (mkFraction 1 3) 2 =
  (r <- Fraction_ctor1 2 ;; operator_mul_Fraction (mkFraction 1 3) r).
Proof.
  destruct (scaling_is_product_with_converted_coefficient (mkFraction 1 3) 2)
    as [E _].
  - by_evaluation.
  - exact E.
Defined.

(** X15: when a.num * k fits in an unsigned int and the scaled pair is not
    0/0, all three scaling operators ([a * k], [k * a], [a *= k]) return the
    reduced form of the rational (a.num * k) / a.denom. *)
Theorem scaling_is_reduced_product (a : Fraction) (k : Z) :
  in_range a -> 0 <= k ->
  m_num a * k < uint_modulus ->
  m_num a * k <> 0 \/ m_denom a <> 0 ->
  operator_mul a k = Returns (reduced (mkFraction (m_num a * k) (m_denom a))) /\
  operator_mul_uint_Fraction k a =
    Returns (reduced (mkFraction (m_num a * k) (m_denom a))) /\
  operator_mul_assign a k =
    Returns (reduced (mkFraction (m_num a * k) (m_denom a))).
Proof.
  intros Ha Hk Fn Hz.
  rewrite operator_mul_normalize, operator_mul_uint_Fraction_normalize by exact Ha.
  rewrite operator_mul_assign_normalize.
  assert (E : normalize (scaled a k) =
              Returns (reduced (mkFraction (m_num a * k) (m_denom a)))).
  { unfold scaled. destruct Ha as [[Hn0 Hn1] [Hd0 Hd1]].
    rewrite umul_small by assumption.
    apply normalize_reduced; [|exact Hz].
    apply in_range_mk; try assumption. nia. }
  rewrite E. repeat split.
Qed.

Lemma scaling_is_reduced_product_witness :
  operator_mul (mkFraction 1 6) 4 = Returns (mkFraction 2 3).
Proof.
  destruct (scaling_is_reduced_product (mkFraction 1 6) 4) as [E _].
  - by_evaluation.
  - by_evaluation.
  - by_evaluation.
  - left. by_evaluation.
  - exact E.
Defined.

(** X16: scaling by 0 returns 0/1 when the denominator is not zero and
    divides by zero when it is; scaling a pair that is not 0/0 by 1 returns
    its reduced form. *)
Theorem scaling_by_zero_and_one (a : Fraction) :
  in_range a ->
  (m_denom a <> 0 -> operator_mul a 0 = Returns (mkFraction 0 1)) /\
  (m_denom a = 0 -> operator_mul a 0 = Undefined) /\
  (not_both_zero a -> operator_mul a 1 = Returns (reduced a)).
Proof.
  intros Ha. rewrite !operator_mul_normalize by exact Ha.
  unfold scaled. rewrite umul_0_r, (umul_1_r (m_num a)) by apply Ha.
  split; [|split].
  - intros Hd. rewrite normalize_reduced.
    + f_equal. apply reduced_zero; [|right; exact Hd|reflexivity].
      split; [by_evaluation | apply Ha].
    + split; [by_evaluation | apply Ha].
    + right. exact Hd.
  - intros ->. reflexivity.
  - intros Za. destruct a as [n d]. apply normalize_reduced; assumption.
Qed.

Lemma scaling_by_zero_and_one_witness :
  operator_mul (mkFraction 5 7) 0 = Returns (mkFraction 0 1) /\
  operator_mul (mkFraction 4 6) 1 = Returns (mkFraction 2 3).
Proof.
  split.
  - destruct (scaling_by_zero_and_one (mkFraction 5 7)) as [Z _].
    + by_evaluation.
    + apply Z. by_evaluation.
  - destruct (scaling_by_zero_and_one (mkFraction 4 6)) as (_ & _ & O).
    + by_evaluation.
    + apply O. left. by_evaluation.
Defined.

Section ProductLaws.

(** Multiplying a reduced form by a further factor gives, after reduction,
    the same pair as multiplying the original pair by it. *)
Lemma reduced_mul_reduced (p : Fraction) (n d : Z) :
  in_range p -> m_denom p <> 0 ->
  0 <= n -> 0 < d ->
  m_num p * n < uint_modulus -> m_denom p * d < uint_modulus ->
  in_range (mkFraction (m_num (reduced p) * n) (m_denom (reduced p) * d)) /\
  m_denom (reduced p) * d <> 0 /\
  reduced (mkFraction (m_num (reduced p) * n) (m_denom (reduced p) * d)) =
  reduced (mkFraction (m_num p * n) (m_denom p * d)).
Proof.
  intros Hp Hd Hn Hd' Fn Fd.
  assert (Zp : not_both_zero p) by (right; exact Hd).
  pose proof (reduced_le p Hp Zp) as [Ln Ld].
  pose proof (reduced_in_range p Hp Zp) as [[Rn _] [Rd _]].
  pose proof (reduced_same_value p Zp) as V.
  pose proof (reduced_denom_eq p Zp) as Ed.
  pose proof (reduced_gcd_pos p Zp) as G.
  destruct Hp as [[Pn _] [Pd _]].
  assert (Rd' : 0 < m_denom (reduced p)) by nia.
  assert (Mn : m_num (reduced p) * n <= m_num p * n)
    by (apply Z.mul_le_mono_nonneg_r; lia).
  assert (Md : m_denom (reduced p) * d <= m_denom p * d)
    by (apply Z.mul_le_mono_nonneg_r; lia).
  assert (R1 : in_range (mkFraction (m_num (reduced p) * n) (m_denom (reduced p) * d))).
  { apply in_range_mk; try (apply Z.mul_nonneg_nonneg; lia); lia. }
  assert (R2 : in_range (mkFraction (m_num p * n) (m_denom p * d))).
  { apply in_range_mk; try (apply Z.mul_nonneg_nonneg; lia); lia. }
  split; [exact R1|]. split; [nia|].
  apply reduced_congruence; try assumption.
  - right; cbn [m_num m_denom]; nia.
  - right; cbn [m_num m_denom]; nia.
  - cbn [m_num m_denom].
    replace (m_num (reduced p) * n * (m_denom p * d))
      with (m_num (reduced p) * m_denom p * (n * d)) by ring.
    rewrite V. ring.
Qed.

End ProductLaws.

(** X17: the product of Fractions is associative as long as nothing wraps
    around: with nonzero denominators and all partial and full products of
    the numerators and of the denominators below 2^32, [(a * b) * c] and
    [a * (b * c)] both return the reduced form of
    (a.num * b.num * c.num) / (a.denom * b.denom * c.denom). *)
Theorem product_associative (a b c : Fraction) :
  in_range a -> in_range b -> in_range c ->
  m_denom a <> 0 -> m_denom b <> 0 -> m_denom c <> 0 ->
  m_num a * m_num b < uint_modulus ->
  m_num b * m_num c < uint_modulus ->
  m_num a * m_num b * m_num c < uint_modulus ->
  m_denom a * m_denom b * m_denom c < uint_modulus ->
  (x <- operator_mul_Fraction a b ;; operator_mul_Fraction x c) =
    Returns (reduced (mkFraction (m_num a * m_num b * m_num c)
                                 (m_denom a * m_denom b * m_denom c))) /\
  (y <- operator_mul_Fraction b c ;; operator_mul_Fraction a y) =
    Returns (reduced (mkFraction (m_num a * m_num b * m_num c)
                                 (m_denom a * m_denom b * m_denom c))).
Proof.
  intros Ha Hb Hc Da Db Dc Fab Fbc Fabc Fd.
  pose proof Ha as [[An _] [Ad _]].
  pose proof Hb as [[Bn _] [Bd _]].
  pose proof Hc as [[Cn _] [Cd _]].
  assert (Fdab : m_denom a * m_denom b < uint_modulus) by nia.
  assert (Fdbc : m_denom b * m_denom c < uint_modulus) by nia.
  split.
  - rewrite (operator_mul_Fraction_fit a b) by (try assumption; right; nia).
    cbn [bind].
    destruct (reduced_mul_reduced
                (mkFraction (m_num a * m_num b) (m_denom a * m_denom b))
                (m_num c) (m_denom c)) as (R & Z & E);
      try (cbn [m_num m_denom]; lia); try (cbn [m_num m_denom]; nia).
    { apply in_range_mk; nia. }
    rewrite operator_mul_Fraction_fit.
    + f_equal. exact E.
    + apply reduced_in_range; [apply in_range_mk; nia | right; cbn [m_num m_denom]; nia].
    + exact Hc.
    + apply R.
    + apply R.
    + right. exact Z.
  - rewrite (operator_mul_Fraction_fit b c) by (try assumption; right; nia).
    cbn [bind].
    destruct (reduced_mul_reduced
                (mkFraction (m_num b * m_num c) (m_denom b * m_denom c))
                (m_num a) (m_denom a)) as (R & Z & E);
      try (cbn [m_num m_denom]; lia); try (cbn [m_num m_denom]; nia).
    { apply in_range_mk; nia. }
    rewrite operator_mul_Fraction_fit.
    + f_equal.
      rewrite (Z.mul_comm (m_num a)), (Z.mul_comm (m_denom a)), E.
      cbn [m_num m_denom]. f_equal. f_equal; ring.
    + exact Ha.
    + apply reduced_in_range; [apply in_range_mk; nia | right; cbn [m_num m_denom]; nia].
    + rewrite Z.mul_comm. apply R.
    + rewrite Z.mul_comm. apply R.
    + right. rewrite Z.mul_comm. exact Z.
Qed.

Lemma product_associative_witness :
  (x <- operator_mul_Fraction (mkFraction 2 3) (mkFraction 3 4) ;;
   operator_mul_Fraction x (mkFraction 4 5)) = Returns (mkFraction 2 5) /\
  (y <- operator_mul_Fraction (mkFraction 3 4) (mkFraction 4 5) ;;
   operator_mul_Fraction (mkFraction 2 3) y) = Returns (mkFraction 2 5).
Proof.
  apply (product_associative (mkFraction 2 3) (mkFraction 3 4) (mkFraction 4 5));
    by_evaluation.
Defined.

(** X18: the product respects [==]: if a == a' and neither product wraps
    around (nonzero denominators, products below 2^32), then [a * b] and
    [a' * b] return the very same stored pair. *)
Theorem product_respects_equality (a a' b : Fraction) :
  in_range a -> in_range a' -> in_range b ->
  m_denom a <> 0 -> m_denom a' <> 0 -> m_denom b <> 0 ->
  m_num a * m_num b < uint_modulus ->
  m_denom a * m_denom b < uint_modulus ->
  m_num a' * m_num b < uint_modulus ->
  m_denom a' * m_denom b < uint_modulus ->
  operator_eq a a' = Returns true ->
  operator_mul_Fraction a b = operator_mul_Fraction a' b /\
  returned (operator_mul_Fraction a b) = true.
Proof.
  intros Ha Ha' Hb Da Da' Db Fn Fd Fn' Fd' E.
  apply operator_eq_true_iff in E; try assumption; try (right; assumption).
  pose proof Ha as [[An _] [Ad _]].
  pose proof Ha' as [[An' _] [Ad' _]].
  pose proof Hb as [[Bn _] [Bd _]].
  rewrite (operator_mul_Fraction_fit a b) by (try assumption; right; nia).
  rewrite (operator_mul_Fraction_fit a' b) by (try assumption; right; nia).
  split; [|reflexivity]. f_equal.
  apply reduced_congruence.
  - apply in_range_mk; nia.
  - apply in_range_mk; nia.
  - right; cbn [m_num m_denom]; nia.
  - right; cbn [m_num m_denom]; nia.
  - cbn [m_num m_denom].
    replace (m_num a * m_num b * (m_denom a' * m_denom b))
      with (m_num a * m_denom a' * (m_num b * m_denom b)) by ring.
    rewrite E. ring.
Qed.

Lemma product_respects_equality_witness :
  operator_mul_Fraction (mkFraction 2 6) (mkFraction 3 5) =
  operator_mul_Fraction (mkFraction 1 3) (mkFraction 3 5).
Proof.
  destruct (product_respects_equality
              (mkFraction 2 6) (mkFraction 1 3) (mkFraction 3 5)) as [E _];
    [by_evaluation .. | exact E].
Defined.

(** ** Rendering and equality *)

Section RenderingInjective.

Lemma render_eq (f : Fraction) :
  render f = (put_uint (m_num f) ++ "/" ++ put_uint (m_denom f))%string.
Proof.
  unfold render, operator_shl. cbn [append]. apply string_app_assoc.
Qed.

Lemma operator_shl_append (os : string) (r : Fraction) :
  operator_shl os r = (os ++ render r)%string.
Proof.
  rewrite render_eq. unfold operator_shl.
  rewrite !string_app_assoc. reflexivity.
Qed.

(** Two numerals followed by a slash and more text can only be equal when the
    numerals are. *)
Lemma digits_slash_split (s1 t1 s2 t2 : string) :
  string_forall is_digit s1 = true ->
  string_forall is_digit t1 = true ->
  (s1 ++ "/" ++ s2)%string = (t1 ++ "/" ++ t2)%string ->
  s1 = t1 /\ s2 = t2.
Proof.
  revert t1. induction s1 as [|c s1 IH]; intros [|c' t1] Hs Ht E; simpl in *.
  - inversion E. auto.
  - inversion E as [[Ec Es]]. subst c'. discriminate Ht.
  - inversion E as [[Ec Es]]. subst c. discriminate Hs.
  - inversion E as [[Ec Es]]. subst c'.
    apply andb_true_iff in Hs. apply andb_true_iff in Ht.
    destruct (IH t1) as [-> ->]; [tauto | tauto | exact Es | auto].
Qed.

Lemma put_uint_inj (x y : Z) :
  0 <= x -> 0 <= y -> put_uint x = put_uint y -> x = y.
Proof.
  intros Hx Hy E.
  pose proof (read_put_uint x Hx) as Rx.
  rewrite E, (read_put_uint y Hy) in Rx. congruence.
Qed.

Lemma render_inj (a b : Fraction) :
  in_range a -> in_range b -> render a = render b -> a = b.
Proof.
  intros [[An _] [Ad _]] [[Bn _] [Bd _]] E.
  rewrite !render_eq in E.
  apply digits_slash_split in E; try apply put_uint_digits.
  destruct E as [En Ed].
  apply put_uint_inj in En; try assumption.
  apply put_uint_inj in Ed; try assumption.
  destruct a, b; simpl in *; congruence.
Qed.

End RenderingInjective.

(** X19: the stream operator appends the rendering of the Fraction to what
    the stream already holds, and the rendering identifies the stored pair:
    two Fractions with unsigned fields that render alike hold the same
    numerator and the same denominator. *)
Theorem rendering_identifies_stored_pair (os : string) (a b : Fraction) :
  in_range a -> in_range b ->
  operator_shl os a = (os ++ render a)%string /\
  (render a = render b -> a = b).
Proof.
  intros Ha Hb. split.
  - apply operator_shl_append.
  - apply render_inj; assumption.
Qed.

Lemma rendering_identifies_stored_pair_witness :
  operator_shl "Three: " (mkFraction 3 1) = "Three: 3/1"%string /\
  mkFraction 3 1 = mkFraction 3 1.
Proof.
  destruct (rendering_identifies_stored_pair
              "Three: " (mkFraction 3 1) (mkFraction 3 1)) as [A I].
  - by_evaluation.
  - by_evaluation.
  - split; [exact A | apply I; reflexivity].
Defined.

(** X20: after the reduction, equal values print alike and only equal values
    do: for operands that are not 0/0, [a == b] is true exactly when the
    normalized a and the normalized b have the same rendering. *)
Theorem equal_iff_same_rendering_after_normalize (a b : Fraction) :
  in_range a -> in_range b -> not_both_zero a -> not_both_zero b ->
  (operator_eq a b = Returns true <->
   fmap render (normalize a) = fmap render (normalize b)).
Proof.
  intros Ha Hb Za Zb.
  rewrite (operator_eq_reduced a b Ha Hb Za Zb).
  rewrite (normalize_reduced a Ha Za), (normalize_reduced b Hb Zb).
  unfold fmap; cbn [bind].
  pose proof (fields_eqb_iff (reduced a) (reduced b)) as E.
  split.
  - intros H. assert (R : reduced a = reduced b) by (apply E; congruence).
    rewrite R. reflexivity.
  - intros H.
    assert (R : reduced a = reduced b).
    { apply render_inj; try (apply reduced_in_range; assumption). congruence. }
    f_equal. apply E, R.
Qed.

Lemma equal_iff_same_rendering_after_normalize_witness :
  operator_eq (mkFraction 2 6) (mkFraction 3 9) = Returns true <->
  fmap render (normalize (mkFraction 2 6)) =
  fmap render (normalize (mkFraction 3 9)).
Proof.
  apply (equal_iff_same_rendering_after_normalize
           (mkFraction 2 6) (mkFraction 3 9)).
  - by_evaluation.
  - by_evaluation.
  - left. by_evaluation.
  - left. by_evaluation.
Defined.

(** * The test driver *)

Section Streams.






End Streams.

(** The report that [main] prints on a stream in its initial state: every
    check passes, and [main] returns 0. *)
Example main_report :
  fmap (fun r => (text (fst r), snd r)) (main fresh_stream) =
  Returns
    (("Three: 3/1" ++ newline ++ "One third: 1/3" ++ newline ++
      report_line "One third times two" "2/3" ++
      report_line "Two times one third" "2/3" ++
      report_line "Three times one third" "1/1" ++
      report_line "Three times one third" "1/1" ++
      report_line "One third times two" "2/3" ++
      report_line "Two third times one third" "2/9" ++
      report_line "One third == one third" "true" ++
      report_line "One third != one forth" "true" ++
      report_line "One third == two sixth" "true" ++
      report_line "One third != three sixth" "true" ++
      report_line "athird < athird" "false" ++
      report_line "afourth < athird" "true" ++
      report_line "athird  <= athird" "true" ++
      report_line "athird  <= afourth" "false" ++
      report_line "athird  > athird" "false" ++
      report_line "afourth > athird" "false" ++
      report_line "athird >= athird" "true" ++
      report_line "athird >= afourth" "true")%string, 0).
Proof. vm_compute. reflexivity. Qed.



(** * Vectors of pointers and the free store *)

Section Erase.

Local Open Scope nat_scope.

(** Erasing at a position inside the vector takes out exactly the element
    there and keeps the others in their order. *)
Lemma erase_inside (v : list pointer) (pos : nat) :
  pos < List.length v ->
  exists before mid after,
    v = before ++ mid :: after /\ List.length before = pos /\
    erase v pos = Returns (before ++ after).
Proof.
  intros Hpos.
  destruct (skipn pos v) as [|mid after] eqn:E.
  - assert (L : List.length (skipn pos v) = List.length v - pos) by apply length_skipn.
    rewrite E in L. simpl in L. lia.
  - exists (firstn pos v), mid, after. repeat split.
    + rewrite <- E. symmetry. apply firstn_skipn.
    + apply firstn_length_le. lia.
    + unfold erase. apply Nat.ltb_lt in Hpos. rewrite Hpos.
      replace (skipn (S pos) v) with after; [reflexivity|].
      change (S pos) with (1 + pos). rewrite <- skipn_skipn, E. reflexivity.
Qed.

Lemma erase_outside (v : list pointer) (pos : nat) :
  List.length v <= pos -> erase v pos = Undefined.
Proof.
  intros H. unfold erase. apply Nat.ltb_ge in H. rewrite H. reflexivity.
Qed.

Lemma erase_Returns_inv (v v' : list pointer) (pos : nat) :
  erase v pos = Returns v' ->
  exists before mid after,
    v = before ++ mid :: after /\ List.length before = pos /\
    v' = before ++ after.
Proof.
  intros E. destruct (Nat.lt_ge_cases pos (List.length v)) as [H|H].
  - destruct (erase_inside v pos H) as (b & m & a & Ev & El & Ee).
    rewrite Ee in E. inversion E. exists b, m, a. auto.
  - rewrite (erase_outside v pos H) in E. discriminate E.
Qed.

(** In a vector of distinct pointers, what is left after erasing is every
    element but the one at the erased position. *)
Lemma erase_In (v v' : list pointer) (pos : nat) :
  NoDup v -> erase v pos = Returns v' ->
  NoDup v' /\ forall x, In x v' <-> In x v /\ x <> nth pos v 0.
Proof.
  intros N E.
  destruct (erase_Returns_inv v v' pos E) as (b & m & a & -> & <- & ->).
  rewrite nth_middle.
  destruct (NoDup_remove _ _ _ N) as [N' Hm].
  split; [exact N'|]. intros x.
  rewrite !in_app_iff in *. simpl. split.
  - intros H. split; [tauto|]. intros ->. tauto.
  - intros [[H|[H|H]] Hx]; try tauto. congruence.
Qed.

End Erase.



Section Deleting.

Local Open Scope nat_scope.

Lemma found_iff (v : list pointer) (p : pointer) :
  found v p = true <-> In p v.
Proof.
  unfold found. rewrite existsb_exists. split.
  - intros (x & Hx & E). apply Nat.eqb_eq in E. subst. exact Hx.
  - intros H. exists p. split; [exact H | apply Nat.eqb_refl].
Qed.

Lemma found_false_iff (v : list pointer) (p : pointer) :
  found v p = false <-> ~ In p v.
Proof.
  rewrite <- found_iff. destruct (found v p); split; congruence.
Qed.

(** Deleting a live object takes it, and nothing else, out of the store. *)
Lemma delete_live (p : pointer) (h : free_store) :
  In p h ->
  exists h', delete p h = Returns h' /\
             forall x, In x h' <-> In x h /\ x <> p.
Proof.
  intros H. unfold delete. apply found_iff in H. rewrite H.
  eexists. split; [reflexivity|]. intros x.
  rewrite filter_In, negb_true_iff, Nat.eqb_neq. reflexivity.
Qed.

(** Deleting an object that is not alive is undefined. *)
Lemma delete_dead (p : pointer) (h : free_store) :
  ~ In p h -> delete p h = Undefined.
Proof.
  intros H. unfold delete. apply found_false_iff in H. rewrite H. reflexivity.
Qed.

Lemma delete_each_live (v : list pointer) :
  forall h : free_store,
  NoDup v -> (forall x, In x v -> In x h) ->
  exists h', delete_each v h = Returns h' /\
             forall x, In x h' <-> In x h /\ ~ In x v.
Proof.
  induction v as [|p v IH]; intros h N Hin.
  - exists h. split; [reflexivity|]. intros x. simpl. tauto.
  - inversion N as [|? ? Hp Nv]; subst.
    destruct (delete_live p h) as (h1 & E1 & H1); [apply Hin; left; reflexivity|].
    destruct (IH h1 Nv) as (h2 & E2 & H2).
    { intros x Hx. apply H1. split; [apply Hin; right; exact Hx|].
      intros ->. contradiction. }
    exists h2. split.
    + simpl. rewrite E1. exact E2.
    + intros x. rewrite H2, H1. simpl.
      destruct (Nat.eq_dec p x) as [->|Hne]; [tauto|].
      split; [intros [[? ?] ?] | intros [? ?]]; repeat split; auto; tauto.
Qed.

Lemma delete_unless_found_live (u v : list pointer) :
  forall h : free_store,
  NoDup v -> (forall x, In x v -> ~ In x u -> In x h) ->
  exists h', delete_unless_found u v h = Returns h' /\
             forall x, In x h' <-> In x h /\ ~ (In x v /\ ~ In x u).
Proof.
  induction v as [|p v IH]; intros h N Hin.
  - exists h. split; [reflexivity|]. intros x. simpl. tauto.
  - inversion N as [|? ? Hp Nv]; subst. simpl.
    destruct (found u p) eqn:F.
    + apply found_iff in F.
      destruct (IH h Nv) as (h2 & E2 & H2).
      { intros x Hx. apply Hin. right; exact Hx. }
      exists h2. split; [exact E2|].
      intros x. rewrite H2.
      destruct (Nat.eq_dec p x) as [->|Hne]; [tauto|].
      split; intros [Hh Hn]; (split; [exact Hh|]); tauto.
    + apply found_false_iff in F.
      destruct (delete_live p h) as (h1 & E1 & H1);
        [apply Hin; [left; reflexivity | exact F]|].
      destruct (IH h1 Nv) as (h2 & E2 & H2).
      { intros x Hx Hu. apply H1. split; [apply Hin; [right; exact Hx | exact Hu]|].
        intros ->. contradiction. }
      exists h2. split; [rewrite E1; exact E2|].
      intros x. rewrite H2, H1.
      destruct (Nat.eq_dec p x) as [->|Hne]; [tauto|].
      split; [intros [[Hh ?] Hn] | intros [Hh Hn]]; repeat split; auto; tauto.
Qed.

Variable fresh : free_store -> pointer.
Hypothesis fresh_is_new : forall h, ~ In (fresh h) h.

(** The loop of [new] fills the vector with distinct pointers to objects
    that were not alive before, and adds exactly these to the store. *)
Lemma fill_new_spec (n : nat) :
  forall (h : free_store) (v : list pointer) (h' : free_store),
  fill_new fresh n h = (v, h') ->
  List.length v = n /\ NoDup v /\
  (forall x, In x v -> ~ In x h) /\
  (forall x, In x h' <-> In x v \/ In x h).
Proof.
  induction n as [|n IH]; intros h v h' E; simpl in E.
  - inversion E; subst. repeat split; try constructor; simpl; tauto.
  - destruct (fill_new fresh n (fresh h :: h)) as [v0 h0] eqn:E0.
    inversion E; subst. clear E.
    destruct (IH _ _ _ E0) as (L & N & D & M).
    repeat split.
    + simpl. rewrite L. reflexivity.
    + constructor; [|exact N].
      intros Hin. apply (D _ Hin). left. reflexivity.
    + intros x [<-|Hx]; [apply fresh_is_new|].
      intros Hh. apply (D _ Hx). right. exact Hh.
    + rewrite M. simpl. tauto.
    + rewrite M. simpl. tauto.
Qed.

End Deleting.

(** X24: problem3 never deletes an object twice, and it frees every object
    it allocated unless the random position [now % 10] is 5, the position
    that removeMiddle erased: then exactly one object, the sixth allocated,
    is left alive.  Stated for any allocator that hands out addresses of
    objects not alive: the objects alive afterwards are those alive before
    plus, when [now % 10 = 5], that one new object. *)
Theorem problem3_leaks_iff_same_position
    (fresh : free_store -> pointer) (now : nat) (h : free_store) :
  (forall s, ~ In (fresh s) s) ->
  exists h' middle,
    problem3 fresh now h = Returns h' /\
    nth_error (fst (fill_new fresh 10 h)) 5 = Some middle /\
    ~ In middle h /\
    forall p, In p h' <-> In p h \/ ((now mod 10)%nat = 5%nat /\ p = middle).
Proof.
  intros Hfresh. unfold problem3.
  destruct (fill_new fresh 10 h) as [objs h10] eqn:E.
  destruct (fill_new_spec fresh Hfresh 10 h objs h10 E) as (L & N & D & M).
  cbn [fst].
  unfold removeMiddle, removeRandom. rewrite L. cbn [Nat.eqb].
  change (10 / 2)%nat with 5%nat.
  assert (K : (now mod 10 < 10)%nat) by (apply Nat.mod_upper_bound; discriminate).
  destruct (erase_inside objs 5) as (b1 & m1 & a1 & E1 & L1 & R1); [rewrite L; lia|].
  destruct (erase_inside objs (now mod 10)) as (b2 & m2 & a2 & E2 & L2 & R2);
    [rewrite L; exact K|].
  rewrite R1, R2. cbn [bind].
  destruct (erase_In objs _ 5 N R1) as [Nu Hu].
  destruct (erase_In objs _ (now mod 10)%nat N R2) as [Nv Hv].
  set (u := b1 ++ a1) in *. set (v := b2 ++ a2) in *.
  assert (Hm1 : nth 5 objs 0%nat = m1).
  { rewrite E1 at 1. rewrite <- L1. apply nth_middle. }
  assert (Hmid : In m1 objs).
  { rewrite E1. apply in_elt. }
  destruct (delete_each_live u h10 Nu) as (h1 & D1 & H1).
  { intros x Hx. apply M. left. apply Hu, Hx. }
  destruct (delete_unless_found_live u v h1 Nv) as (h2 & D2 & H2).
  { intros x Hx Hnu. apply H1. split; [|exact Hnu].
    apply M. left. apply Hv, Hx. }
  rewrite D1. cbn [bind]. rewrite D2. cbn [bind].
  exists h2, m1. repeat split.
  - rewrite E1 at 1. rewrite <- L1.
    rewrite nth_error_app2, Nat.sub_diag by lia. reflexivity.
  - apply D, Hmid.
  - intros Hp. apply H2 in Hp. destruct Hp as [Hp1 Hnot].
    apply H1 in Hp1. destruct Hp1 as [Hp10 Hnu].
    apply M in Hp10. destruct Hp10 as [Hobj|Hh]; [|left; exact Hh].
    right.
    assert (Ep : p = m1).
    { destruct (Nat.eq_dec p m1) as [Ep|Np]; [exact Ep|].
      exfalso. apply Hnu, Hu. rewrite Hm1. tauto. }
    split; [|exact Ep]. subst p.
    destruct (Nat.eq_dec (nth (now mod 10) objs 0%nat) m1) as [En|Nn].
    + rewrite <- Hm1 in En.
      apply (proj1 (NoDup_nth objs 0%nat) N); [rewrite L; exact K | rewrite L; lia | exact En].
    + exfalso. apply Hnot. split.
      * apply Hv. split; [exact Hmid | congruence].
      * exact Hnu.
  - intros [Hh|[Ek ->]].
    + assert (Hno : ~ In p objs) by (intros Ho; exact (D _ Ho Hh)).
      apply H2. split.
      * apply H1. split; [apply M; right; exact Hh|].
        intros Hx. apply Hu in Hx. tauto.
      * intros [Hx _]. apply Hv in Hx. tauto.
    + apply H2. split.
      * apply H1. split; [apply M; left; exact Hmid|].
        intros Hx. apply Hu in Hx. rewrite Hm1 in Hx. tauto.
      * intros [Hx _]. apply Hv in Hx. rewrite Ek, Hm1 in Hx. tauto.
Qed.

Section Allocator.

Local Open Scope nat_scope.

Lemma next_address_is_new (h : free_store) : ~ In (next_address h) h.
Proof.
  unfold next_address. intros Hin.
  assert (F : Forall (fun k => k <= list_max h) h) by (apply list_max_le; lia).
  rewrite Forall_forall in F. apply F in Hin. lia.
Qed.

End Allocator.

Lemma problem3_leaks_iff_same_position_witness :
  exists h' middle,
    problem3 next_address 25 [7%nat] = Returns h' /\
    nth_error (fst (fill_new next_address 10 [7%nat])) 5 = Some middle /\
    ~ In middle [7%nat] /\
    forall p, In p h' <-> In p [7%nat] \/ ((25 mod 10)%nat = 5%nat /\ p = middle).
Proof.
  apply (problem3_leaks_iff_same_position next_address 25 [7%nat]).
  apply next_address_is_new.
Defined.

(** Two runs of [problem3] on an empty store: the clock picks another
    position than the middle and nothing stays alive, or it picks the middle
    and the sixth object stays alive. *)
Example problem3_runs :
  problem3 next_address 123 [] = Returns [] /\
  problem3 next_address 125 [] = Returns [6%nat].
Proof. split; reflexivity. Qed.
